(** * yui-relayer core: channel handshake and strategy runner

    A shallow embedding of the relayer's [core] package:

    - [Channel]        the handshake driver and step evaluator that re-check
                       finality before acting (the file that logs through
                       [GetChannelPairLogger]);
    - [ChannelLegacy]  the earlier handshake driver and step evaluator (the
                       file that logs through zap);
    - [Strategy]       [RunStrategy].

    Go's [(value, error)] results and panics are an explicit three-way
    [Outcome]; the chains and the helpers of the package that answer queries
    are records of answers, one snapshot per evaluation of the step; the
    driver's loop is a function of the snapshots its ticks observe. *)

From Stdlib Require Import ZArith List String Ascii Bool Lia PeanoNat.
Import ListNotations.

Local Open Scope string_scope.
Local Open Scope list_scope.

(** ** Shared data model *)

Module Core.

(** Go's [error]: the message it carries. *)
Definition Error := string.

(** What a Go call produces: a value with a nil error, a non-nil error, or a
    panic that unwinds the caller. *)
Inductive Outcome (A : Type) : Type :=
| Ok (a : A)
| Err (e : Error)
| Panic (v : string).

Arguments Ok {A} a.
Arguments Err {A} e.
Arguments Panic {A} v.

Definition bind {A B : Type} (m : Outcome A) (k : A -> Outcome B) : Outcome B :=
  match m with
  | Ok a => k a
  | Err e => Err e
  | Panic v => Panic v
  end.

Notation "x <- m ;; k" := (bind m (fun x => k))
  (at level 61, m at next level, right associativity).
Notation "' pat <- m ;; k" := (bind m (fun x => match x with pat => k end))
  (at level 61, pat pattern, m at next level, right associativity).

(** [chantypes.State] is a protobuf enum, an int32 in Go. *)
Definition State := Z.
Definition UNINITIALIZED : State := 0%Z.
Definition INIT : State := 1%Z.
Definition TRYOPEN : State := 2%Z.
Definition OPEN : State := 3%Z.

(** [chantypes.Order], also an int32 enum. *)
Definition Order := Z.
Definition UNORDERED : Order := 1%Z.
Definition ORDERED : Order := 2%Z.

Definition Height := N.
Definition Address := string.
Definition Header := string.

Record PathEnd := {
  ClientID : string;
  ConnectionID : string;
  ChannelID : string;
  PortID : string
}.

Record ChannelEnd := {
  State_ : State;
  Ordering : Order
}.

Record QueryChannelResponse := {
  Channel : ChannelEnd;
  ProofHeight : Height
}.

(** A query context pins the height a query is answered at. *)
Record QueryContext := { ctxHeight : Height }.

Definition NewQueryContext (h : Height) : QueryContext := {| ctxHeight := h |}.

(** The header synchronizer, as far as the evaluator reads it: the pinned
    query context of each chain, by chain ID. *)
Record SyncHeaders := { GetQueryContext : string -> QueryContext }.

(** The messages the path end builds.  Each constructor records the path end
    that builds it and the arguments it was given. *)
Inductive Msg :=
| MsgUpdateClient (self : PathEnd) (h : Header) (signer : Address)
| MsgChannelOpenInit (self counterparty : PathEnd) (signer : Address)
| MsgChannelOpenTry (self counterparty : PathEnd)
    (cp : QueryChannelResponse) (signer : Address)
| MsgChannelOpenAck (self counterparty : PathEnd)
    (cp : QueryChannelResponse) (signer : Address)
| MsgChannelOpenConfirm (self : PathEnd)
    (cp : QueryChannelResponse) (signer : Address).

(** Modelled from the spec: the path end's message constructors ([ChanInit],
    [ChanTry], [ChanAck], [ChanConfirm], [UpdateClients]) are not under src/.
    They "return protocol messages given counterparty path info and a signer
    address"; [UpdateClients] yields one update-client message per pending
    header, in order ("[update(header1), update(header2), ChanTry]"). *)
Definition ChanInit (self counterparty : PathEnd) (signer : Address) : Msg :=
  MsgChannelOpenInit self counterparty signer.

Definition ChanTry (self counterparty : PathEnd) (cp : QueryChannelResponse)
    (signer : Address) : Msg :=
  MsgChannelOpenTry self counterparty cp signer.

Definition ChanAck (self counterparty : PathEnd) (cp : QueryChannelResponse)
    (signer : Address) : Msg :=
  MsgChannelOpenAck self counterparty cp signer.

Definition ChanConfirm (self : PathEnd) (cp : QueryChannelResponse)
    (signer : Address) : Msg :=
  MsgChannelOpenConfirm self cp signer.

Definition UpdateClient (self : PathEnd) (h : Header) (signer : Address) : Msg :=
  MsgUpdateClient self h signer.

Definition UpdateClients (self : PathEnd) (hs : list Header) (signer : Address)
    : list Msg :=
  map (fun h => UpdateClient self h signer) hs.

(** One chain as one evaluation of the step sees it: its identity and the
    answers of the methods the core calls on it. *)
Record ProvableChain := {
  ChainID : string;
  Path : PathEnd;
  LatestHeight : Outcome Height;
  GetAddress : Outcome Address;
  Send : list Msg -> bool
}.

(** How a call that hands back no value ends: with an error, or with a
    panic. *)
Inductive Failure :=
| Fails (e : Error)
| Panics (v : string).

Definition failed {A : Type} (f : Failure) : Outcome A :=
  match f with
  | Fails e => Err e
  | Panics v => Panic v
  end.

(** The answers of the package's helpers that are not under src/, during one
    evaluation of the step.  [SetupBothHeadersForUpdate] and [Updates] are
    called once per retry round, so they answer by call number.
    [addressFailure] is what [mustGetAddress] does with an error of
    [GetAddress]. *)
Record World := {
  validatePaths : option Error;
  addressFailure : Error -> Failure;
  NewSyncHeaders : Outcome SyncHeaders;
  SetupBothHeadersForUpdate : nat -> Outcome (list Header * list Header);
  Updates : nat -> Outcome SyncHeaders;
  QueryChannelPair :
    QueryContext -> QueryContext ->
    Outcome (QueryChannelResponse * QueryChannelResponse)
}.

(** The relay message batch. *)
Record RelayMsgs := {
  Src : list Msg;
  Dst : list Msg;
  Last : bool;
  Succeeded : bool
}.

Definition NewRelayMsgs : RelayMsgs :=
  {| Src := []; Dst := []; Last := false; Succeeded := false |}.

Definition setSrc (r : RelayMsgs) (ms : list Msg) : RelayMsgs :=
  {| Src := ms; Dst := Dst r; Last := Last r; Succeeded := Succeeded r |}.

Definition setDst (r : RelayMsgs) (ms : list Msg) : RelayMsgs :=
  {| Src := Src r; Dst := ms; Last := Last r; Succeeded := Succeeded r |}.

Definition setLast (r : RelayMsgs) (b : bool) : RelayMsgs :=
  {| Src := Src r; Dst := Dst r; Last := b; Succeeded := Succeeded r |}.

Definition setSucceeded (r : RelayMsgs) (b : bool) : RelayMsgs :=
  {| Src := Src r; Dst := Dst r; Last := Last r; Succeeded := b |}.

(** Modelled from the spec: [RelayMsgs.Ready] is not under src/.  "A batch is
    ready iff at least one side's sequence is non-empty." *)
Definition Ready (r : RelayMsgs) : bool :=
  negb ((List.length (Src r) =? 0) && (List.length (Dst r) =? 0))%nat.

(** What the driver does to the outside during a tick. *)
Inductive Effect :=
| Submit (chain : string) (msgs : list Msg)
| Sleep (seconds : nat).

(** Modelled from the spec: [RelayMsgs.Send] and [RelayMsgs.Success] are not
    under src/.  The batch is submitted "side by side, src batch to src chain,
    dst batch to dst chain"; each chain's [Send] reports the outcome as a
    boolean, and the batch succeeded when no side was rejected.  A side with
    nothing to submit is skipped. *)
Definition sendSide (c : ProvableChain) (ms : list Msg) : bool * list Effect :=
  match ms with
  | [] => (true, [])
  | _ => (Send c ms, [Submit (ChainID c) ms])
  end.

Definition RelayMsgs_Send (r : RelayMsgs) (src dst : ProvableChain)
    : RelayMsgs * list Effect :=
  let '(okS, fxS) := sendSide src (Src r) in
  let '(okD, fxD) := sendSide dst (Dst r) in
  (setSucceeded r (okS && okD), fxS ++ fxD).

Definition Success (r : RelayMsgs) : bool := Succeeded r.

(** Modelled from the spec: [mustGetAddress] is not under src/.  The chain
    adapter's [GetAddress] gives "address|error" and the message constructors
    take "a signer address": the helper hands back the address [GetAddress]
    resolves.  The specification has no words on what the helper does with an
    error of [GetAddress]; that is left to the world ([addressFailure]), and
    no address comes back then. *)
Definition mustGetAddress (w : World) (c : ProvableChain) : Outcome Address :=
  match GetAddress c with
  | Ok a => Ok a
  | Err e => failed (addressFailure w e)
  | Panic v => Panic v
  end.

(** [retry.Do] of avast/retry-go with [retry.Attempts], [retry.LastErrorOnly]
    and [retry.OnRetry]: the function is called until it returns nil or
    [attempts] calls have failed; after every failed call the hook runs; the
    error of the last failed call is returned (nil when no call was made).
    The delay between calls is not modelled.  [st] is the state the closures
    capture; [n] numbers the calls from 0. *)
Fixpoint retry_Do {S : Type}
    (retryableFunc : nat -> S -> Outcome (S * option Error))
    (onRetry : nat -> Error -> S -> Outcome S)
    (attempts n : nat) (st : S) (last : option Error)
    : Outcome (S * option Error) :=
  match attempts with
  | O => Ok (st, last)
  | Datatypes.S k =>
      '(st1, r) <- retryableFunc n st ;;
      match r with
      | None => Ok (st1, None)
      | Some e =>
          st2 <- onRetry n e st1 ;;
          retry_Do retryableFunc onRetry k (Datatypes.S n) st2 (Some e)
      end
  end.

(** The variables the two closures handed to [retry.Do] capture. *)
Record RetryVars := {
  sh_ : SyncHeaders;
  srcUpdateHeaders : list Header;
  dstUpdateHeaders : list Header
}.

(** The closure retried by [retry.Do] in [createChannelStep], the same in both
    files.  The headers assigned along with an error are never read. *)
Definition setupHeaders (w : World) (n : nat) (v : RetryVars)
    : Outcome (RetryVars * option Error) :=
  match SetupBothHeadersForUpdate w n with
  | Ok (s, d) =>
      Ok ({| sh_ := sh_ v; srcUpdateHeaders := s; dstUpdateHeaders := d |}, None)
  | Err e =>
      Ok ({| sh_ := sh_ v; srcUpdateHeaders := []; dstUpdateHeaders := [] |},
          Some e)
  | Panic p => Panic p
  end.

(** The [retry.OnRetry] hook of [createChannelStep]: refresh the synchronizer,
    panic on failure. *)
Definition refreshHeaders (w : World) (n : nat) (_ : Error) (v : RetryVars)
    : Outcome RetryVars :=
  match Updates w n with
  | Ok sh' =>
      Ok {| sh_ := sh'; srcUpdateHeaders := srcUpdateHeaders v;
            dstUpdateHeaders := dstUpdateHeaders v |}
  | Err e => Panic e
  | Panic p => Panic p
  end.

(** [fmt.Sprintf("! Channel failed: [%s]chan{%s}port{%s} -> [%s]chan{%s}port{%s}", ...)] *)
Definition channelFailedf (a1 a2 a3 b1 b2 b3 : string) : string :=
  "! Channel failed: [" ++ a1 ++ "]chan{" ++ a2 ++ "}port{" ++ a3 ++
  "} -> [" ++ b1 ++ "]chan{" ++ b2 ++ "}port{" ++ b3 ++ "}".

(** How one pass through the body of the driver's [for] loop ends. *)
Inductive LoopResult :=
| Continue (failures : nat)
| Return (err : option Error)
| Panicked (v : string).

(** The driver after the ticks it has seen so far. *)
Inductive DriverState :=
| Running (failures : nat)
| Returned (err : option Error)
| Crashed (v : string).

(** What one tick observes: the helpers' answers and the two chains. *)
Record Tick := {
  world : World;
  src : ProvableChain;
  dst : ProvableChain
}.

End Core.

(** ** The handshake with the finality re-check *)

Module Channel.
Import Core.

Section WithPackage.

(** [rtyAttNum], the number of attempts behind [rtyAtt], and the [String]
    method of [chantypes.State] are declared outside src/. *)
Variable rtyAttNum : nat.
Variable State_String : State -> string.

Definition checkChannelFinality (w : World) (src dst : ProvableChain)
    (srcChannel dstChannel : ChannelEnd) : Outcome bool :=
  sh <- LatestHeight src ;;
  dh <- LatestHeight dst ;;
  '(srcChanLatest, dstChanLatest) <-
    QueryChannelPair w (NewQueryContext sh) (NewQueryContext dh) ;;
  if negb (State_ srcChannel =? State_ (Channel srcChanLatest))%Z then
    Ok false
  else if negb (State_ dstChannel =? State_ (Channel dstChanLatest))%Z then
    Ok false
  else
    Ok true.

Definition createChannelStep (w : World) (src dst : ProvableChain)
    (ordering : Order) : Outcome RelayMsgs :=
  let out := NewRelayMsgs in
  match validatePaths w with
  | Some err => Err err
  | None =>
  sh <- NewSyncHeaders w ;;
  '(v, err) <-
    retry_Do (setupHeaders w) (refreshHeaders w) rtyAttNum 0
      {| sh_ := sh; srcUpdateHeaders := []; dstUpdateHeaders := [] |} None ;;
  match err with
  | Some err => Err err
  | None =>
  let sh := sh_ v in
  let srcUpdateHeaders := srcUpdateHeaders v in
  let dstUpdateHeaders := dstUpdateHeaders v in
  '(srcChan, dstChan) <-
    QueryChannelPair w (GetQueryContext sh (ChainID src))
      (GetQueryContext sh (ChainID dst)) ;;
  finalized <- checkChannelFinality w src dst (Channel srcChan) (Channel dstChan) ;;
  if negb finalized then Ok out else
  let srcState := State_ (Channel srcChan) in
  let dstState := State_ (Channel dstChan) in
  if ((srcState =? UNINITIALIZED) && (dstState =? UNINITIALIZED))%Z then
    addr <- mustGetAddress w src ;;
    Ok (setSrc out (Src out ++ [ChanInit (Path src) (Path dst) addr]))
  else if ((srcState =? UNINITIALIZED) && (dstState =? INIT))%Z then
    addr <- mustGetAddress w src ;;
    let out :=
      if (0 <? List.length dstUpdateHeaders)%nat
      then setSrc out (Src out ++ UpdateClients (Path src) dstUpdateHeaders addr)
      else out in
    Ok (setSrc out (Src out ++ [ChanTry (Path src) (Path dst) dstChan addr]))
  else if ((srcState =? INIT) && (dstState =? UNINITIALIZED))%Z then
    addr <- mustGetAddress w dst ;;
    let out :=
      if (0 <? List.length srcUpdateHeaders)%nat
      then setDst out (Dst out ++ UpdateClients (Path dst) srcUpdateHeaders addr)
      else out in
    Ok (setDst out (Dst out ++ [ChanTry (Path dst) (Path src) srcChan addr]))
  else if ((srcState =? TRYOPEN) && (dstState =? INIT))%Z then
    addr <- mustGetAddress w dst ;;
    let out :=
      if (0 <? List.length srcUpdateHeaders)%nat
      then setDst out (Dst out ++ UpdateClients (Path dst) srcUpdateHeaders addr)
      else out in
    Ok (setDst out (Dst out ++ [ChanAck (Path dst) (Path src) srcChan addr]))
  else if ((srcState =? INIT) && (dstState =? TRYOPEN))%Z then
    addr <- mustGetAddress w src ;;
    let out :=
      if (0 <? List.length dstUpdateHeaders)%nat
      then setSrc out (Src out ++ UpdateClients (Path src) dstUpdateHeaders addr)
      else out in
    Ok (setSrc out (Src out ++ [ChanAck (Path src) (Path dst) dstChan addr]))
  else if ((srcState =? TRYOPEN) && (dstState =? OPEN))%Z then
    addr <- mustGetAddress w src ;;
    let out :=
      if (0 <? List.length dstUpdateHeaders)%nat
      then setSrc out (Src out ++ UpdateClients (Path src) dstUpdateHeaders addr)
      else out in
    let out := setSrc out (Src out ++ [ChanConfirm (Path src) dstChan addr]) in
    Ok (setLast out true)
  else if ((srcState =? OPEN) && (dstState =? TRYOPEN))%Z then
    addr <- mustGetAddress w dst ;;
    let out :=
      if (0 <? List.length srcUpdateHeaders)%nat
      then setDst out (Dst out ++ UpdateClients (Path dst) srcUpdateHeaders addr)
      else out in
    let out := setDst out (Dst out ++ [ChanConfirm (Path dst) srcChan addr]) in
    Ok (setLast out true)
  else
    Panic ("not implemeneted error: " ++ State_String srcState ++ " <=> " ++
           State_String dstState)
  end
  end.

(** One pass through the body of the [for] loop of [CreateChannel].  Logging
    is not modelled. *)
Definition loopBody (order : Order) (failures : nat) (t : Tick)
    : LoopResult * list Effect :=
  match createChannelStep (world t) (src t) (dst t) order with
  | Err err => (Return (Some err), [])
  | Panic v => (Panicked v, [])
  | Ok chanSteps =>
      if negb (Ready chanSteps) then
        (Continue failures, [])
      else
        let '(chanSteps, fx) := RelayMsgs_Send chanSteps (src t) (dst t) in
        if Success chanSteps && Last chanSteps then
          (Return None, fx)
        else if Success chanSteps then
          (Continue 0, fx)
        else if negb (Success chanSteps) then
          let failures := S failures in
          if (2 <? failures)%nat then
            (Return (Some (channelFailedf
                       (ChainID (src t)) (ChannelID (Path (src t)))
                       (PortID (Path (src t)))
                       (ChainID (dst t)) (ChannelID (Path (dst t)))
                       (PortID (Path (dst t))))),
             fx ++ [Sleep 5])
          else
            (Continue failures, fx ++ [Sleep 5])
        else
          (Continue failures, fx)
  end.

(** The [for] loop over the ticks the driver lives through; a state that is
    still [Running] is waiting on the ticker. *)
Fixpoint loop (order : Order) (failures : nat) (ticks : list Tick)
    : DriverState * list Effect :=
  match ticks with
  | [] => (Running failures, [])
  | t :: rest =>
      let '(r, fx) := loopBody order failures t in
      match r with
      | Continue failures' =>
          let '(st, fx') := loop order failures' rest in (st, fx ++ fx')
      | Return err => (Returned err, fx)
      | Panicked v => (Crashed v, fx)
      end
  end.

Definition CreateChannel (ticks : list Tick) (ordered : bool)
    : DriverState * list Effect :=
  let order := if ordered then ORDERED else UNORDERED in
  let failures := 0 in
  loop order failures ticks.

End WithPackage.

End Channel.

(** ** The earlier handshake, without the finality re-check *)

Module ChannelLegacy.
Import Core.

Section WithPackage.

Variable rtyAttNum : nat.
Variable State_String : State -> string.

Definition createChannelStep (w : World) (src dst : ProvableChain)
    (ordering : Order) : Outcome RelayMsgs :=
  let out := NewRelayMsgs in
  match validatePaths w with
  | Some err => Err err
  | None =>
  sh <- NewSyncHeaders w ;;
  '(v, err) <-
    retry_Do (setupHeaders w) (refreshHeaders w) rtyAttNum 0
      {| sh_ := sh; srcUpdateHeaders := []; dstUpdateHeaders := [] |} None ;;
  match err with
  | Some err => Err err
  | None =>
  let sh := sh_ v in
  let srcUpdateHeaders := srcUpdateHeaders v in
  let dstUpdateHeaders := dstUpdateHeaders v in
  '(srcChan, dstChan) <-
    QueryChannelPair w (GetQueryContext sh (ChainID src))
      (GetQueryContext sh (ChainID dst)) ;;
  let srcState := State_ (Channel srcChan) in
  let dstState := State_ (Channel dstChan) in
  if ((srcState =? UNINITIALIZED) && (dstState =? UNINITIALIZED))%Z then
    addr <- mustGetAddress w src ;;
    Ok (setSrc out (Src out ++ [ChanInit (Path src) (Path dst) addr]))
  else if ((srcState =? UNINITIALIZED) && (dstState =? INIT))%Z then
    addr <- mustGetAddress w src ;;
    let out :=
      if (0 <? List.length dstUpdateHeaders)%nat
      then setSrc out (Src out ++ UpdateClients (Path src) dstUpdateHeaders addr)
      else out in
    Ok (setSrc out (Src out ++ [ChanTry (Path src) (Path dst) dstChan addr]))
  else if ((srcState =? INIT) && (dstState =? UNINITIALIZED))%Z then
    addr <- mustGetAddress w dst ;;
    let out :=
      if (0 <? List.length srcUpdateHeaders)%nat
      then setDst out (Dst out ++ UpdateClients (Path dst) srcUpdateHeaders addr)
      else out in
    Ok (setDst out (Dst out ++ [ChanTry (Path dst) (Path src) srcChan addr]))
  else if ((srcState =? TRYOPEN) && (dstState =? INIT))%Z then
    addr <- mustGetAddress w dst ;;
    let out :=
      if (0 <? List.length srcUpdateHeaders)%nat
      then setDst out (Dst out ++ UpdateClients (Path dst) srcUpdateHeaders addr)
      else out in
    Ok (setDst out (Dst out ++ [ChanAck (Path dst) (Path src) srcChan addr]))
  else if ((srcState =? INIT) && (dstState =? TRYOPEN))%Z then
    addr <- mustGetAddress w src ;;
    let out :=
      if (0 <? List.length dstUpdateHeaders)%nat
      then setSrc out (Src out ++ UpdateClients (Path src) dstUpdateHeaders addr)
      else out in
    Ok (setSrc out (Src out ++ [ChanAck (Path src) (Path dst) dstChan addr]))
  else if ((srcState =? TRYOPEN) && (dstState =? OPEN))%Z then
    addr <- mustGetAddress w src ;;
    let out :=
      if (0 <? List.length dstUpdateHeaders)%nat
      then setSrc out (Src out ++ UpdateClients (Path src) dstUpdateHeaders addr)
      else out in
    let out := setSrc out (Src out ++ [ChanConfirm (Path src) dstChan addr]) in
    Ok (setLast out true)
  else if ((srcState =? OPEN) && (dstState =? TRYOPEN))%Z then
    addr <- mustGetAddress w dst ;;
    let out :=
      if (0 <? List.length srcUpdateHeaders)%nat
      then setDst out (Dst out ++ UpdateClients (Path dst) srcUpdateHeaders addr)
      else out in
    let out := setDst out (Dst out ++ [ChanConfirm (Path dst) srcChan addr]) in
    Ok (setLast out true)
  else
    Panic ("not implemeneted error: " ++ State_String srcState ++ " <=> " ++
           State_String dstState)
  end
  end.

(** One pass through the body of the [for] loop of [CreateChannel].  A batch
    that is not ready reaches [break], which leaves the loop for the final
    [return nil].  Logging is not modelled. *)
Definition loopBody (order : Order) (failures : nat) (t : Tick)
    : LoopResult * list Effect :=
  match createChannelStep (world t) (src t) (dst t) order with
  | Err err => (Return (Some err), [])
  | Panic v => (Panicked v, [])
  | Ok chanSteps =>
      if negb (Ready chanSteps) then
        (Return None, [])
      else
        let '(chanSteps, fx) := RelayMsgs_Send chanSteps (src t) (dst t) in
        if Success chanSteps && Last chanSteps then
          (Return None, fx)
        else if Success chanSteps then
          (Continue 0, fx)
        else if negb (Success chanSteps) then
          let failures := S failures in
          if (2 <? failures)%nat then
            (Return (Some (channelFailedf
                       (ChainID (src t)) (ClientID (Path (src t)))
                       (ChannelID (Path (src t)))
                       (ChainID (dst t)) (ClientID (Path (dst t)))
                       (ChannelID (Path (dst t))))),
             fx ++ [Sleep 5])
          else
            (Continue failures, fx ++ [Sleep 5])
        else
          (Continue failures, fx)
  end.

(** The [for] loop over the ticks the driver lives through; a state that is
    still [Running] is waiting on the ticker. *)
Fixpoint loop (order : Order) (failures : nat) (ticks : list Tick)
    : DriverState * list Effect :=
  match ticks with
  | [] => (Running failures, [])
  | t :: rest =>
      let '(r, fx) := loopBody order failures t in
      match r with
      | Continue failures' =>
          let '(st, fx') := loop order failures' rest in (st, fx ++ fx')
      | Return err => (Returned err, fx)
      | Panicked v => (Crashed v, fx)
      end
  end.

Definition CreateChannel (ticks : list Tick) (ordered : bool)
    : DriverState * list Effect :=
  let order := if ordered then ORDERED else UNORDERED in
  let failures := 0 in
  loop order failures ticks.

End WithPackage.

End ChannelLegacy.

(** ** The strategy runner *)

Module Strategy.
Import Core.

(** What a goroutine can be handed when it is started. *)
Inductive Value :=
| VChain (chainID : string)
| VStrategy
| VChan (c : nat).

(** A goroutine started by a [go] statement: the chain whose
    [StartEventListener] it runs and the arguments of the call, which are all
    the goroutine can reach of the caller's locals. *)
Record Goroutine := {
  listener : string;
  args : list Value
}.

(** The body of the function value [RunStrategy] returns: one send on an
    unbuffered channel. *)
Inductive Handle :=
| SendOn (c : nat).

(** The answers of the collaborators during one call. *)
Record StrategyWorld := {
  NewSyncHeaders : Outcome SyncHeaders;
  UnrelayedSequences : Outcome (list N * list N);
  RelayPackets : option Error
}.

(** The channel [make(chan struct{})] creates is fresh: no value that existed
    before the call holds it. *)
Definition doneChan : nat := 0.

(** [RunStrategy]: the handle or the error, and the goroutines started on the
    way. *)
Definition RunStrategy (w : StrategyWorld) (src dst : string)
    : Outcome Handle * list Goroutine :=
  match NewSyncHeaders w with
  | Err err => (Err err, [])
  | Panic v => (Panic v, [])
  | Ok sh =>
      let g1 := {| listener := src; args := [VChain dst; VStrategy] |} in
      let g2 := {| listener := dst; args := [VChain src; VStrategy] |} in
      match UnrelayedSequences w with
      | Err err => (Err err, [g1; g2])
      | Panic v => (Panic v, [g1; g2])
      | Ok sp =>
          match RelayPackets w with
          | Some err => (Err err, [g1; g2])
          | None => (Ok (SendOn doneChan), [g1; g2])
          end
      end
  end.

Definition holds (c : nat) (g : Goroutine) : bool :=
  existsb (fun v => match v with VChan c' => (c' =? c)%nat | _ => false end)
          (args g).

(** A send on an unbuffered channel completes only together with a receive
    by a goroutine that holds the channel; with no such goroutine it blocks
    for ever. *)
Inductive SendResult :=
| Blocked
| Delivered (receivers : list Goroutine).

Definition invoke (h : Handle) (gs : list Goroutine) : SendResult :=
  match h with
  | SendOn c =>
      match filter (holds c) gs with
      | [] => Blocked
      | rs => Delivered rs
      end
  end.

(** The goroutines the handle's send can reach. *)
Definition signalled (h : Handle) (gs : list Goroutine) : list Goroutine :=
  match invoke h gs with
  | Blocked => []
  | Delivered rs => rs
  end.

End Strategy.

(** ** Specification-side notions *)

Module Spec.
Import Core.

(** The observations an evaluation of [createChannelStep] has made when it
    reaches the finality check or the dispatch: path validation, the
    synchronizer, the retried header set-up and the pinned channel query, as
    both files perform them. *)
Record Observation := {
  obsSrcChan : QueryChannelResponse;
  obsDstChan : QueryChannelResponse;
  obsSrcUpdateHeaders : list Header;
  obsDstUpdateHeaders : list Header
}.

Definition observe (rtyAttNum : nat) (w : World) (src dst : ProvableChain)
    : Outcome Observation :=
  match validatePaths w with
  | Some err => Err err
  | None =>
  sh <- NewSyncHeaders w ;;
  '(v, err) <-
    retry_Do (setupHeaders w) (refreshHeaders w) rtyAttNum 0
      {| sh_ := sh; srcUpdateHeaders := []; dstUpdateHeaders := [] |} None ;;
  match err with
  | Some err => Err err
  | None =>
  '(srcChan, dstChan) <-
    QueryChannelPair w (GetQueryContext (sh_ v) (ChainID src))
      (GetQueryContext (sh_ v) (ChainID dst)) ;;
  Ok {| obsSrcChan := srcChan; obsDstChan := dstChan;
        obsSrcUpdateHeaders := srcUpdateHeaders v;
        obsDstUpdateHeaders := dstUpdateHeaders v |}
  end
  end.

Definition srcState (o : Observation) : State := State_ (Channel (obsSrcChan o)).
Definition dstState (o : Observation) : State := State_ (Channel (obsDstChan o)).

(** The dispatch table of the specification. *)
Inductive Side := OnSrc | OnDst.
Inductive Handshake := ChanOpenInit | ChanOpenTry | ChanOpenAck | ChanOpenConfirm.

Record Action := {
  side : Side;
  message : Handshake;
  withUpdates : bool;
  lastStep : bool
}.

Definition table : list ((State * State) * Action) :=
  [ ((UNINITIALIZED, UNINITIALIZED),
       {| side := OnSrc; message := ChanOpenInit; withUpdates := false; lastStep := false |});
    ((UNINITIALIZED, INIT),
       {| side := OnSrc; message := ChanOpenTry; withUpdates := true; lastStep := false |});
    ((INIT, UNINITIALIZED),
       {| side := OnDst; message := ChanOpenTry; withUpdates := true; lastStep := false |});
    ((TRYOPEN, INIT),
       {| side := OnDst; message := ChanOpenAck; withUpdates := true; lastStep := false |});
    ((INIT, TRYOPEN),
       {| side := OnSrc; message := ChanOpenAck; withUpdates := true; lastStep := false |});
    ((TRYOPEN, OPEN),
       {| side := OnSrc; message := ChanOpenConfirm; withUpdates := true; lastStep := true |});
    ((OPEN, TRYOPEN),
       {| side := OnDst; message := ChanOpenConfirm; withUpdates := true; lastStep := true |}) ].

(** The chain that receives the messages of an action, its counterparty, the
    counterparty's channel record and the headers pending for the receiver. *)
Definition receiver (a : Action) (src dst : ProvableChain) : ProvableChain :=
  match side a with OnSrc => src | OnDst => dst end.

Definition sender (a : Action) (src dst : ProvableChain) : ProvableChain :=
  match side a with OnSrc => dst | OnDst => src end.

Definition senderChan (a : Action) (o : Observation) : QueryChannelResponse :=
  match side a with OnSrc => obsDstChan o | OnDst => obsSrcChan o end.

Definition pendingHeaders (a : Action) (o : Observation) : list Header :=
  match side a with
  | OnSrc => obsDstUpdateHeaders o
  | OnDst => obsSrcUpdateHeaders o
  end.

Definition handshakeMsg (a : Action) (src dst : ProvableChain) (o : Observation)
    (signer : Address) : Msg :=
  let self := Path (receiver a src dst) in
  let cp := Path (sender a src dst) in
  match message a with
  | ChanOpenInit => MsgChannelOpenInit self cp signer
  | ChanOpenTry => MsgChannelOpenTry self cp (senderChan a o) signer
  | ChanOpenAck => MsgChannelOpenAck self cp (senderChan a o) signer
  | ChanOpenConfirm => MsgChannelOpenConfirm self (senderChan a o) signer
  end.

(** The messages of an action, in submission order: one update-client message
    per pending header, then the handshake message. *)
Definition sideMsgs (a : Action) (src dst : ProvableChain) (o : Observation)
    (signer : Address) : list Msg :=
  (if withUpdates a
   then map (fun h => MsgUpdateClient (Path (receiver a src dst)) h signer)
            (pendingHeaders a o)
   else []) ++ [handshakeMsg a src dst o signer].

Definition expectedBatch (a : Action) (src dst : ProvableChain)
    (o : Observation) (signer : Address) : RelayMsgs :=
  match side a with
  | OnSrc => {| Src := sideMsgs a src dst o signer; Dst := [];
                Last := lastStep a; Succeeded := false |}
  | OnDst => {| Src := []; Dst := sideMsgs a src dst o signer;
                Last := lastStep a; Succeeded := false |}
  end.

(** The pinned observation and the re-observation at the latest heights
    disagree on the state of the src or of the dst channel. *)
Definition disagree (o : Observation) (srcLatest dstLatest : QueryChannelResponse)
    : Prop :=
  srcState o <> State_ (Channel srcLatest) \/
  dstState o <> State_ (Channel dstLatest).

(** The chain with another answer to [LatestHeight]. *)
Definition withLatestHeight (c : ProvableChain) (h : Outcome Height)
    : ProvableChain :=
  {| ChainID := ChainID c; Path := Path c; LatestHeight := h;
     GetAddress := GetAddress c; Send := Send c |}.

(** The error of the [k]-th call of the header set-up, if it failed. *)
Definition setupError (w : World) (k : nat) : option Error :=
  match SetupBothHeadersForUpdate w k with
  | Err e => Some e
  | _ => None
  end.

(** What a tick of the driver amounts to, read off the evaluator's result and
    the answer of the submission. *)
Inductive TickKind :=
| EvalError (e : Error)
| EvalPanic (v : string)
| Waiting
| Accepted (last : bool)
| Rejected.

Definition kindOf (result : Outcome RelayMsgs) (t : Tick) : TickKind :=
  match result with
  | Err e => EvalError e
  | Panic v => EvalPanic v
  | Ok out =>
      if Ready out then
        let sent := fst (RelayMsgs_Send out (src t) (dst t)) in
        if Success sent then Accepted (Last sent) else Rejected
      else Waiting
  end.

(** The number of submissions rejected in a row at the end of a run; ticks on
    which nothing was submitted do not interrupt the row. *)
Fixpoint trailingRejections (latestFirst : list TickKind) : nat :=
  match latestFirst with
  | Rejected :: earlier => S (trailingRejections earlier)
  | Waiting :: earlier => trailingRejections earlier
  | _ => 0
  end.

Definition streak (ks : list TickKind) : nat := trailingRejections (rev ks).

(** The driver of the specification: RUNNING with a failure counter, or
    stopped.  [stopOnWait] tells whether a batch that is not ready ends the
    run. *)
Definition driverStep (stopOnWait : bool) (failure : Error) (failures : nat)
    (k : TickKind) : LoopResult :=
  match k with
  | EvalError e => Return (Some e)
  | EvalPanic v => Panicked v
  | Waiting => if stopOnWait then Return None else Continue failures
  | Accepted true => Return None
  | Accepted false => Continue 0
  | Rejected =>
      if (2 <? S failures)%nat then Return (Some failure)
      else Continue (S failures)
  end.

(** The terminal error of each file. *)
Definition channelFailed (t : Tick) : Error :=
  channelFailedf
    (ChainID (src t)) (ChannelID (Path (src t))) (PortID (Path (src t)))
    (ChainID (dst t)) (ChannelID (Path (dst t))) (PortID (Path (dst t))).

Definition channelFailedLegacy (t : Tick) : Error :=
  channelFailedf
    (ChainID (src t)) (ClientID (Path (src t))) (ChannelID (Path (src t)))
    (ChainID (dst t)) (ClientID (Path (dst t))) (ChannelID (Path (dst t))).

(** [s] names [id]: [id] occurs in [s]. *)
Definition names (s id : string) : Prop :=
  exists pre post : string, s = (pre ++ id ++ post)%string.

Fixpoint occurs (id s : string) : bool :=
  if String.prefix id s then true
  else match s with
       | EmptyString => false
       | String _ rest => occurs id rest
       end.

Definition submits (fx : list Effect) : list Effect :=
  filter (fun e => match e with Submit _ _ => true | Sleep _ => false end) fx.

(** A loop of the shape both drivers have, over any loop body. *)
Definition stateOf (r : LoopResult) : DriverState :=
  match r with
  | Continue f => Running f
  | Return err => Returned err
  | Panicked v => Crashed v
  end.

Fixpoint run (body : nat -> Tick -> LoopResult * list Effect)
    (failures : nat) (ticks : list Tick) : DriverState * list Effect :=
  match ticks with
  | [] => (Running failures, [])
  | t :: rest =>
      let '(r, fx) := body failures t in
      match r with
      | Continue failures' =>
          let '(st, fx') := run body failures' rest in (st, fx ++ fx')
      | Return err => (Returned err, fx)
      | Panicked v => (Crashed v, fx)
      end
  end.

Definition reachable (s d : State) : Prop :=
  exists a, In ((s, d), a) table.

(** The shape of one side of a batch: update-client messages, then one
    handshake message. *)
Definition isUpdate (m : Msg) : bool :=
  match m with
  | MsgUpdateClient _ _ _ => true
  | _ => false
  end.

Definition updatesThenHandshake (ms : list Msg) : Prop :=
  exists ups h, ms = ups ++ [h] /\ forallb isUpdate ups = true
                /\ isUpdate h = false.

(** The path end that builds a message and the address that signs it. *)
Definition selfOf (m : Msg) : PathEnd :=
  match m with
  | MsgUpdateClient self _ _ => self
  | MsgChannelOpenInit self _ _ => self
  | MsgChannelOpenTry self _ _ _ => self
  | MsgChannelOpenAck self _ _ _ => self
  | MsgChannelOpenConfirm self _ _ => self
  end.

Definition signerOf (m : Msg) : Address :=
  match m with
  | MsgUpdateClient _ _ a => a
  | MsgChannelOpenInit _ _ a => a
  | MsgChannelOpenTry _ _ _ a => a
  | MsgChannelOpenAck _ _ _ a => a
  | MsgChannelOpenConfirm _ _ a => a
  end.

(** The world as the evaluation finds it once the header set-up has gone
    through: the synchronizer is [sh] and the set-up answers [hs] at once. *)
Definition settled (w : World) (sh : SyncHeaders)
    (hs : list Header * list Header) : World :=
  {| validatePaths := validatePaths w;
     addressFailure := addressFailure w;
     NewSyncHeaders := Ok sh;
     SetupBothHeadersForUpdate := fun _ => Ok hs;
     Updates := Updates w;
     QueryChannelPair := QueryChannelPair w |}.

(** The two listeners [RunStrategy] starts. *)
Definition listeners (src dst : string) : list Strategy.Goroutine :=
  [ {| Strategy.listener := src;
       Strategy.args := [Strategy.VChain dst; Strategy.VStrategy] |};
    {| Strategy.listener := dst;
       Strategy.args := [Strategy.VChain src; Strategy.VStrategy] |} ].

Definition sleeps (fx : list Effect) : list Effect :=
  filter (fun e => match e with Sleep _ => true | Submit _ _ => false end) fx.

(** What a tick submits, read off the evaluator's result. *)
Definition sendEffects (result : Outcome RelayMsgs) (t : Tick) : list Effect :=
  match result with
  | Ok out =>
      if Ready out then snd (RelayMsgs_Send out (src t) (dst t)) else []
  | _ => []
  end.

End Spec.

(** ** Concrete chains and worlds *)

Module Examples.
Import Core.

Definition rtyAttNum : nat := 5.

Definition State_String (s : State) : string :=
  if (s =? 0)%Z then "STATE_UNINITIALIZED_UNSPECIFIED"
  else if (s =? 1)%Z then "STATE_INIT"
  else if (s =? 2)%Z then "STATE_TRYOPEN"
  else if (s =? 3)%Z then "STATE_OPEN"
  else if (s =? 4)%Z then "STATE_CLOSED"
  else "STATE_UNKNOWN".

Definition path0 : PathEnd :=
  {| ClientID := "07-tendermint-0"; ConnectionID := "connection-0";
     ChannelID := "channel-0"; PortID := "transfer" |}.

Definition path1 : PathEnd :=
  {| ClientID := "07-tendermint-1"; ConnectionID := "connection-1";
     ChannelID := "channel-1"; PortID := "transfer" |}.

(** A chain whose address resolves and whose [Send] answers [accept]. *)
Definition chain (id : string) (p : PathEnd) (latest : Height)
    (addr : Outcome Address) (accept : bool) : ProvableChain :=
  {| ChainID := id; Path := p; LatestHeight := Ok latest;
     GetAddress := addr; Send := fun _ => accept |}.

Definition ibc0 (accept : bool) : ProvableChain :=
  chain "ibc0" path0 11%N (Ok "cosmos1src") accept.

Definition ibc1 (accept : bool) : ProvableChain :=
  chain "ibc1" path1 21%N (Ok "cosmos1dst") accept.

(** The synchronizer pins ibc0 at height 10 and ibc1 at height 20. *)
Definition pinned : SyncHeaders :=
  {| GetQueryContext := fun id =>
       if String.eqb id "ibc0" then NewQueryContext 10%N
       else NewQueryContext 20%N |}.

Definition response (s : State) (h : Height) : QueryChannelResponse :=
  {| Channel := {| State_ := s; Ordering := UNORDERED |}; ProofHeight := h |}.

(** A world in which the two channels are seen in the states [at_pinned] at
    the pinned heights and in the states [now] at any other height, and in
    which the header set-up answers [setup] and the refresh [updates]. *)
Definition worldOf (at_pinned now : State * State)
    (setup : nat -> Outcome (list Header * list Header))
    (updates : nat -> Outcome SyncHeaders) : World :=
  {| validatePaths := None;
     addressFailure := Panics;
     NewSyncHeaders := Ok pinned;
     SetupBothHeadersForUpdate := setup;
     Updates := updates;
     QueryChannelPair := fun a b =>
       if (ctxHeight a =? 10)%N && (ctxHeight b =? 20)%N
       then Ok (response (fst at_pinned) 10%N, response (snd at_pinned) 20%N)
       else Ok (response (fst now) (ctxHeight a), response (snd now) (ctxHeight b)) |}.

(** A world at rest: the same states at the pinned and at the latest heights;
    [hs] are the headers pending in each direction. *)
Definition steady (states : State * State) (hs : list Header * list Header)
    : World :=
  worldOf states states (fun _ => Ok hs) (fun _ => Ok pinned).

(** The scenario "dst ahead one step": src UNINITIALIZED, dst INIT, two
    headers of dst pending for src. *)
Definition dstAhead : World :=
  steady (UNINITIALIZED, INIT) ([], ["header1"; "header2"]).

Definition dstAheadObs : Spec.Observation :=
  {| Spec.obsSrcChan := response UNINITIALIZED 10%N;
     Spec.obsDstChan := response INIT 20%N;
     Spec.obsSrcUpdateHeaders := [];
     Spec.obsDstUpdateHeaders := ["header1"; "header2"] |}.

Definition tryOnSrc : Spec.Action :=
  {| Spec.side := Spec.OnSrc; Spec.message := Spec.ChanOpenTry;
     Spec.withUpdates := true; Spec.lastStep := false |}.

(** Both channels already open at every height. *)
Definition bothOpen : World := steady (OPEN, OPEN) ([], []).

Definition bothOpenObs : Spec.Observation :=
  {| Spec.obsSrcChan := response OPEN 10%N;
     Spec.obsDstChan := response OPEN 20%N;
     Spec.obsSrcUpdateHeaders := [];
     Spec.obsDstUpdateHeaders := [] |}.

(** Nothing started at the pinned heights; src has moved to INIT since. *)
Definition inTransition : World :=
  worldOf (UNINITIALIZED, UNINITIALIZED) (INIT, UNINITIALIZED)
    (fun _ => Ok ([], [])) (fun _ => Ok pinned).

Definition coldStartObs : Spec.Observation :=
  {| Spec.obsSrcChan := response UNINITIALIZED 10%N;
     Spec.obsDstChan := response UNINITIALIZED 20%N;
     Spec.obsSrcUpdateHeaders := [];
     Spec.obsDstUpdateHeaders := [] |}.

(** The header set-up fails on every call; the refresh succeeds. *)
Definition headersDown : World :=
  worldOf (UNINITIALIZED, UNINITIALIZED) (UNINITIALIZED, UNINITIALIZED)
    (fun k => Err ("latest header unavailable, call " ++
                   String (ascii_of_nat (48 + k)) "")%string)
    (fun _ => Ok pinned).

Definition tickOf (w : World) (acceptSrc acceptDst : bool) : Tick :=
  {| world := w; src := ibc0 acceptSrc; dst := ibc1 acceptDst |}.

(** Nothing started on either chain; [acceptSrc] tells whether ibc0 accepts
    what is submitted to it. *)
Definition coldStart (acceptSrc : bool) : Tick :=
  tickOf (steady (UNINITIALIZED, UNINITIALIZED) ([], [])) acceptSrc true.

(** A tick that observes a state in transition. *)
Definition waitingTick : Tick := tickOf inTransition true true.

(** A strategy run in which every collaborator succeeds. *)
Definition relayReady : Strategy.StrategyWorld :=
  {| Strategy.NewSyncHeaders := Ok pinned;
     Strategy.UnrelayedSequences := Ok ([1%N; 2%N], []);
     Strategy.RelayPackets := None |}.

(** The header set-up times out twice and then answers; every refresh
    succeeds. *)
Definition flaky : World :=
  worldOf (UNINITIALIZED, INIT) (UNINITIALIZED, INIT)
    (fun k => if (k <? 2)%nat then Err "timeout" else Ok ([], ["header3"]))
    (fun _ => Ok pinned).

(** The header set-up always fails; the first refresh succeeds, the later
    ones fail. *)
Definition refreshDown : World :=
  worldOf (UNINITIALIZED, INIT) (UNINITIALIZED, INIT)
    (fun _ => Err "timeout")
    (fun k => if (k =? 0)%nat then Ok pinned else Err "refresh failed").

(** The paths do not validate. *)
Definition noPath : World :=
  {| validatePaths := Some "path on chain ibc0 failed to set";
     addressFailure := Panics;
     NewSyncHeaders := Ok pinned;
     SetupBothHeadersForUpdate := fun _ => Ok ([], []);
     Updates := fun _ => Ok pinned;
     QueryChannelPair := fun a b =>
       Ok (response UNINITIALIZED (ctxHeight a),
           response UNINITIALIZED (ctxHeight b)) |}.

(** src TRYOPEN, dst OPEN: the last step. *)
Definition finalConfirm : Tick :=
  tickOf (steady (TRYOPEN, OPEN) ([], [])) true true.

(** A strategy run in which the unrelayed sequences cannot be queried. *)
Definition relayBroken : Strategy.StrategyWorld :=
  {| Strategy.NewSyncHeaders := Ok pinned;
     Strategy.UnrelayedSequences := Err "query failed";
     Strategy.RelayPackets := None |}.

End Examples.

(** ** Properties of the step evaluator *)

Import Core.

(** Replays, in an unfolded [createChannelStep], the observations recorded by
    a successful [Spec.observe]. *)
Ltac replay_observe H :=
  unfold Spec.observe in H;
  match type of H with
  | context [validatePaths ?w] => destruct (validatePaths w); [discriminate H|]
  end;
  match type of H with
  | context [NewSyncHeaders ?w] =>
      destruct (NewSyncHeaders w); cbn [bind] in H |- *; try discriminate H
  end;
  match type of H with
  | context [retry_Do ?f ?g ?n ?k ?s ?l] =>
      destruct (retry_Do f g n k s l) as [[? [?|]]| |];
      cbn [bind] in H |- *; try discriminate H
  end;
  match type of H with
  | context [QueryChannelPair ?w ?a ?b] =>
      destruct (QueryChannelPair w a b) as [[? ?]| |];
      cbn [bind] in H |- *; try discriminate H
  end;
  injection H as H; subst.

Lemma legacy_step_from_finalized (n : nat) (S : State -> string) (w : World)
    (src dst : ProvableChain) (ord : Order) (o : Spec.Observation) :
  Spec.observe n w src dst = Ok o ->
  Channel.checkChannelFinality w src dst
    (Channel (Spec.obsSrcChan o)) (Channel (Spec.obsDstChan o)) = Ok true ->
  Channel.createChannelStep n S w src dst ord
  = ChannelLegacy.createChannelStep n S w src dst ord.
Proof.
  intros Hobs Hfin.
  unfold Channel.createChannelStep, ChannelLegacy.createChannelStep.
  replay_observe Hobs. cbn in Hfin. rewrite Hfin. cbn [bind negb].
  reflexivity.
Qed.

(** In the seven cases of the table the earlier file's evaluator resolves the
    receiver's address and returns the batch of the table. *)
Lemma legacy_step_dispatch (n : nat) (S : State -> string) (w : World)
    (src dst : ProvableChain) (ord : Order) (o : Spec.Observation)
    (a : Spec.Action) :
  Spec.observe n w src dst = Ok o ->
  In ((Spec.srcState o, Spec.dstState o), a) Spec.table ->
  ChannelLegacy.createChannelStep n S w src dst ord
  = addr <- mustGetAddress w (Spec.receiver a src dst) ;;
    Ok (Spec.expectedBatch a src dst o addr).
Proof.
  intros Hobs Hin.
  unfold ChannelLegacy.createChannelStep.
  replay_observe Hobs.
  unfold Spec.srcState, Spec.dstState in Hin.
  cbn [Spec.obsSrcChan Spec.obsDstChan In Spec.table] in Hin.
  repeat (destruct Hin as [Hin|Hin]); try contradiction;
    injection Hin as Hs Hd Ha; subst a; rewrite <- Hs, <- Hd;
    cbn [Spec.receiver Spec.side];
    cbn - [UpdateClients mustGetAddress];
    (destruct (mustGetAddress _ _) as [addr|e|p]; cbn [bind];
     [|reflexivity|reflexivity]);
    unfold Spec.expectedBatch, Spec.sideMsgs, Spec.handshakeMsg; cbn;
    try reflexivity;
    match goal with
    | |- context [List.length ?hs] => destruct hs; reflexivity
    end.
Qed.

Lemma mustGetAddress_ok (w : World) (c : ProvableChain) (addr : Address) :
  GetAddress c = Ok addr -> mustGetAddress w c = Ok addr.
Proof. intros H. unfold mustGetAddress. now rewrite H. Qed.

(** C1. For each of the seven pairs of the dispatch table, once the
    observations are made (and, in the file that has it, the finality check
    passes) and the receiving chain's address resolves, [createChannelStep]
    returns exactly the batch of the table: the handshake message on the
    specified side, after one update-client message per pending header on that
    side, nothing on the other side, and the last-step flag set exactly for
    (TRYOPEN, OPEN) and (OPEN, TRYOPEN). *)
Theorem createChannelStep_dispatch_table
    (n : nat) (S : State -> string) (w : World) (src dst : ProvableChain)
    (ord : Order) (o : Spec.Observation) (a : Spec.Action) (addr : Address) :
  Spec.observe n w src dst = Ok o ->
  In ((Spec.srcState o, Spec.dstState o), a) Spec.table ->
  GetAddress (Spec.receiver a src dst) = Ok addr ->
  (Channel.checkChannelFinality w src dst
     (Channel (Spec.obsSrcChan o)) (Channel (Spec.obsDstChan o)) = Ok true ->
   Channel.createChannelStep n S w src dst ord
   = Ok (Spec.expectedBatch a src dst o addr))
  /\ ChannelLegacy.createChannelStep n S w src dst ord
     = Ok (Spec.expectedBatch a src dst o addr)
  /\ (Last (Spec.expectedBatch a src dst o addr) = true <->
      (Spec.srcState o, Spec.dstState o) = (TRYOPEN, OPEN) \/
      (Spec.srcState o, Spec.dstState o) = (OPEN, TRYOPEN)).
Proof.
  intros Hobs Hin Haddr.
  assert (Hleg : ChannelLegacy.createChannelStep n S w src dst ord
                 = Ok (Spec.expectedBatch a src dst o addr)).
  { rewrite (legacy_step_dispatch n S w src dst ord o a Hobs Hin).
    now rewrite (mustGetAddress_ok w _ _ Haddr). }
  split; [|split].
  - intros Hfin. rewrite (legacy_step_from_finalized n S w src dst ord o Hobs Hfin).
    exact Hleg.
  - exact Hleg.
  - cbn [In Spec.table] in Hin.
    repeat (destruct Hin as [Hin|Hin]); try contradiction;
      injection Hin as Hs Hd Ha; subst a; rewrite <- Hs, <- Hd; cbn;
      (split; [intros HL; try discriminate HL; auto
              | intros [HL|HL]; try discriminate HL; reflexivity]).
Qed.

Lemma createChannelStep_dispatch_table_witness :
  Channel.createChannelStep Examples.rtyAttNum Examples.State_String
    Examples.dstAhead (Examples.ibc0 true) (Examples.ibc1 true) ORDERED
  = Ok {| Src := [ MsgUpdateClient Examples.path0 "header1" "cosmos1src";
                   MsgUpdateClient Examples.path0 "header2" "cosmos1src";
                   MsgChannelOpenTry Examples.path0 Examples.path1
                     (Examples.response INIT 20%N) "cosmos1src" ];
          Dst := []; Last := false; Succeeded := false |}.
Proof.
  refine (proj1 (createChannelStep_dispatch_table
            Examples.rtyAttNum Examples.State_String Examples.dstAhead
            (Examples.ibc0 true) (Examples.ibc1 true) ORDERED
            Examples.dstAheadObs Examples.tryOnSrc "cosmos1src" _ _ _) _).
  - reflexivity.
  - cbn. tauto.
  - reflexivity.
  - reflexivity.
Defined.

(** C5. A pair of states outside the seven of the table that reaches the
    dispatch makes [createChannelStep] panic: no batch and no error value is
    returned. *)
Theorem createChannelStep_no_fallback
    (n : nat) (S : State -> string) (w : World) (src dst : ProvableChain)
    (ord : Order) (o : Spec.Observation) :
  Spec.observe n w src dst = Ok o ->
  ~ Spec.reachable (Spec.srcState o) (Spec.dstState o) ->
  (Channel.checkChannelFinality w src dst
     (Channel (Spec.obsSrcChan o)) (Channel (Spec.obsDstChan o)) = Ok true ->
   Channel.createChannelStep n S w src dst ord
   = Panic ("not implemeneted error: " ++ S (Spec.srcState o) ++ " <=> " ++
            S (Spec.dstState o)))
  /\ ChannelLegacy.createChannelStep n S w src dst ord
     = Panic ("not implemeneted error: " ++ S (Spec.srcState o) ++ " <=> " ++
              S (Spec.dstState o)).
Proof.
  intros Hobs Hout.
  assert (Hleg : ChannelLegacy.createChannelStep n S w src dst ord
     = Panic ("not implemeneted error: " ++ S (Spec.srcState o) ++ " <=> " ++
              S (Spec.dstState o))).
  { unfold ChannelLegacy.createChannelStep.
    replay_observe Hobs.
    unfold Spec.srcState, Spec.dstState in *.
    cbn [Spec.obsSrcChan Spec.obsDstChan] in *.
    revert Hout.
    generalize (State_ (Channel q)) as s, (State_ (Channel q0)) as d.
    intros s d Hout.
    assert (Hno : forall act, ~ In ((s, d), act) Spec.table)
      by (intros act Ha; apply Hout; exists act; exact Ha).
    repeat match goal with
    | |- context [(s =? ?c)%Z] =>
        destruct (Z.eqb_spec s c); [subst s; cbn [Z.eqb andb Pos.eqb]|cbn [andb]]
    | |- context [(d =? ?c)%Z] =>
        destruct (Z.eqb_spec d c); [subst d; cbn [Z.eqb andb Pos.eqb]|cbn [andb]]
    end;
    try reflexivity;
    exfalso; eapply Hno; cbn; tauto. }
  split; [|exact Hleg].
  intros Hfin.
  rewrite (legacy_step_from_finalized n S w src dst ord o Hobs Hfin).
  exact Hleg.
Qed.

Lemma createChannelStep_no_fallback_witness :
  Channel.createChannelStep Examples.rtyAttNum Examples.State_String
    Examples.bothOpen (Examples.ibc0 true) (Examples.ibc1 true) UNORDERED
  = Panic "not implemeneted error: STATE_OPEN <=> STATE_OPEN".
Proof.
  refine (proj1 (createChannelStep_no_fallback
            Examples.rtyAttNum Examples.State_String Examples.bothOpen
            (Examples.ibc0 true) (Examples.ibc1 true) UNORDERED
            Examples.bothOpenObs _ _) _).
  - reflexivity.
  - intros [act Hin]. cbn in Hin. intuition discriminate.
  - reflexivity.
Defined.

(** C9. The batch [createChannelStep] returns is the same for ORDERED and for
    UNORDERED, and for any two values of the ordering argument. *)
Theorem createChannelStep_ignores_ordering
    (n : nat) (S : State -> string) (w : World) (src dst : ProvableChain) :
  Channel.createChannelStep n S w src dst ORDERED
  = Channel.createChannelStep n S w src dst UNORDERED
  /\ ChannelLegacy.createChannelStep n S w src dst ORDERED
     = ChannelLegacy.createChannelStep n S w src dst UNORDERED
  /\ (forall ord1 ord2 : Order,
        Channel.createChannelStep n S w src dst ord1
        = Channel.createChannelStep n S w src dst ord2
        /\ ChannelLegacy.createChannelStep n S w src dst ord1
           = ChannelLegacy.createChannelStep n S w src dst ord2).
Proof.
  repeat split; reflexivity.
Qed.

(** When every call of the header set-up fails and every refresh succeeds,
    [retry.Do] hands back the error of the last call. *)
Lemma retry_Do_exhausted (w : World) (attempts : nat) :
  forall (k : nat) (st : RetryVars) (last : option Error),
  (forall j, k <= j < k + attempts -> Spec.setupError w j <> None) ->
  (forall j, k <= j < k + attempts -> exists sh, Updates w j = Ok sh) ->
  exists st',
    retry_Do (setupHeaders w) (refreshHeaders w) attempts k st last
    = Ok (st', match attempts with
               | O => last
               | Datatypes.S m => Spec.setupError w (k + m)
               end).
Proof.
  induction attempts as [|m IH]; intros k st last Hfail Hupd.
  - exists st. reflexivity.
  - cbn [retry_Do].
    assert (Hk : k <= k < k + Datatypes.S m) by lia.
    pose proof (Hfail k Hk) as Hf. destruct (Hupd k Hk) as [sh' Hu].
    unfold Spec.setupError in Hf. unfold setupHeaders at 1.
    destruct (SetupBothHeadersForUpdate w k) as [[s d]|e|p] eqn:Hs;
      try congruence.
    cbn [bind]. unfold refreshHeaders at 1. rewrite Hu. cbn [bind].
    destruct (IH (Datatypes.S k)
                {| sh_ := sh'; srcUpdateHeaders := []; dstUpdateHeaders := [] |}
                (Some e)) as [st' Hst'].
    + intros j Hj. apply Hfail. lia.
    + intros j Hj. apply Hupd. lia.
    + exists st'. cbn [srcUpdateHeaders dstUpdateHeaders]. rewrite Hst'.
      destruct m as [|m'].
      * unfold Spec.setupError. rewrite Nat.add_0_r, Hs. reflexivity.
      * replace (k + Datatypes.S m') with (Datatypes.S k + m') by lia.
        reflexivity.
Qed.

(** C7, as the code has it.  When the paths validate, the synchronizer is
    built, every one of the [rtyAttNum] calls of [SetupBothHeadersForUpdate]
    fails and the refresh the hook runs after each failed call succeeds, the
    one after the last call included, [createChannelStep] returns the error of
    the last call, whatever the channel queries would have answered. *)
Theorem createChannelStep_header_setup_exhausted
    (n : nat) (S : State -> string) (w : World) (src dst : ProvableChain)
    (ord : Order) (sh : SyncHeaders) (e : Error) :
  validatePaths w = None ->
  NewSyncHeaders w = Ok sh ->
  0 < n ->
  (forall j, j < n -> Spec.setupError w j <> None) ->
  (forall j, j < n -> exists sh', Updates w j = Ok sh') ->
  SetupBothHeadersForUpdate w (n - 1) = Err e ->
  Channel.createChannelStep n S w src dst ord = Err e
  /\ ChannelLegacy.createChannelStep n S w src dst ord = Err e.
Proof.
  intros Hval Hsh Hn Hfail Hupd Hlast.
  destruct (retry_Do_exhausted w n 0
              {| sh_ := sh; srcUpdateHeaders := []; dstUpdateHeaders := [] |}
              None) as [st' Hst'].
  - intros j Hj. apply Hfail. lia.
  - intros j Hj. apply Hupd. lia.
  - assert (He : match n with
                 | O => None
                 | Datatypes.S m => Spec.setupError w (0 + m)
                 end = Some e).
    { destruct n as [|m]; [lia|].
      unfold Spec.setupError.
      replace (0 + m) with (Datatypes.S m - 1) by lia.
      rewrite Hlast. reflexivity. }
    rewrite He in Hst'.
    unfold Channel.createChannelStep, ChannelLegacy.createChannelStep.
    rewrite Hval, Hsh. cbn [bind]. rewrite Hst'. cbn [bind].
    split; reflexivity.
Qed.

Lemma createChannelStep_header_setup_exhausted_witness :
  Channel.createChannelStep 5 Examples.State_String Examples.headersDown
    (Examples.ibc0 true) (Examples.ibc1 true) ORDERED
  = Err "latest header unavailable, call 4".
Proof.
  refine (proj1 (createChannelStep_header_setup_exhausted
            5 Examples.State_String Examples.headersDown
            (Examples.ibc0 true) (Examples.ibc1 true) ORDERED
            Examples.pinned "latest header unavailable, call 4" _ _ _ _ _ _)).
  - reflexivity.
  - reflexivity.
  - lia.
  - intros j Hj. cbn. discriminate.
  - intros j Hj. exists Examples.pinned. reflexivity.
  - reflexivity.
Defined.

(** C7, as stated, fails: with two attempts that both fail and a refresh that
    succeeds between them, the attempts are exhausted, yet the refresh the
    hook runs after the second failed call returns an error and the evaluation
    panics with it instead of returning the error of the set-up. *)
Lemma header_setup_exhausted_then_hook_panics :
  ~ (forall (n : nat) (S : State -> string) (w : World)
       (src dst : ProvableChain) (ord : Order) (sh : SyncHeaders) (e : Error),
       validatePaths w = None ->
       NewSyncHeaders w = Ok sh ->
       0 < n ->
       (forall j, j < n -> Spec.setupError w j <> None) ->
       (forall j, j + 1 < n -> exists sh', Updates w j = Ok sh') ->
       SetupBothHeadersForUpdate w (n - 1) = Err e ->
       Channel.createChannelStep n S w src dst ord = Err e).
Proof.
  intros H.
  specialize (H 2 Examples.State_String Examples.refreshDown
                (Examples.ibc0 true) (Examples.ibc1 true) ORDERED
                Examples.pinned "timeout" eq_refl eq_refl).
  assert (Hstep : Channel.createChannelStep 2 Examples.State_String
                    Examples.refreshDown (Examples.ibc0 true)
                    (Examples.ibc1 true) ORDERED = Err "timeout").
  { apply H.
    - lia.
    - intros j Hj. cbn. discriminate.
    - intros j Hj. exists Examples.pinned.
      destruct j as [|j]; [reflexivity|lia].
    - reflexivity. }
  cbn in Hstep. discriminate Hstep.
Qed.

Example header_setup_exhausted_then_hook_panics_value :
  Channel.createChannelStep 2 Examples.State_String Examples.refreshDown
    (Examples.ibc0 true) (Examples.ibc1 true) ORDERED
  = Panic "refresh failed"
  /\ ChannelLegacy.createChannelStep 2 Examples.State_String
       Examples.refreshDown (Examples.ibc0 true) (Examples.ibc1 true) ORDERED
     = Panic "refresh failed".
Proof. split; reflexivity. Qed.

(** C2, as the code has it.  In the file with the finality re-check: when the
    observations are made, both latest heights and the re-query at them are
    obtained, and the pinned and the latest state disagree for either chain,
    [createChannelStep] returns the empty batch, which is not ready, with no
    error.  The earlier file makes no re-observation: its result is the same
    whatever the chains answer to [LatestHeight]. *)
Theorem createChannelStep_waits_for_finality
    (n : nat) (S : State -> string) (w : World) (src dst : ProvableChain)
    (ord : Order) (o : Spec.Observation) (sh dh : Height)
    (srcLatest dstLatest : QueryChannelResponse) :
  Spec.observe n w src dst = Ok o ->
  LatestHeight src = Ok sh ->
  LatestHeight dst = Ok dh ->
  QueryChannelPair w (NewQueryContext sh) (NewQueryContext dh)
  = Ok (srcLatest, dstLatest) ->
  Spec.disagree o srcLatest dstLatest ->
  Channel.createChannelStep n S w src dst ord = Ok NewRelayMsgs
  /\ Ready NewRelayMsgs = false
  /\ Src NewRelayMsgs = [] /\ Dst NewRelayMsgs = []
  /\ (forall lhs lhd : Outcome Height,
        ChannelLegacy.createChannelStep n S w
          (Spec.withLatestHeight src lhs) (Spec.withLatestHeight dst lhd) ord
        = ChannelLegacy.createChannelStep n S w src dst ord).
Proof.
  intros Hobs Hsh Hdh Hq Hdis.
  repeat split.
  unfold Channel.createChannelStep.
  replay_observe Hobs.
  unfold Channel.checkChannelFinality.
  rewrite Hsh, Hdh. cbn [bind]. rewrite Hq. cbn [bind].
  unfold Spec.disagree, Spec.srcState, Spec.dstState in Hdis.
  cbn [Spec.obsSrcChan Spec.obsDstChan] in Hdis.
  destruct (Z.eqb_spec (State_ (Channel q)) (State_ (Channel srcLatest)));
    [|reflexivity].
  destruct (Z.eqb_spec (State_ (Channel q0)) (State_ (Channel dstLatest)));
    [|reflexivity].
  exfalso. tauto.
Qed.

Lemma createChannelStep_waits_for_finality_witness :
  Channel.createChannelStep Examples.rtyAttNum Examples.State_String
    Examples.inTransition (Examples.ibc0 true) (Examples.ibc1 true) ORDERED
  = Ok NewRelayMsgs.
Proof.
  refine (proj1 (createChannelStep_waits_for_finality
            Examples.rtyAttNum Examples.State_String Examples.inTransition
            (Examples.ibc0 true) (Examples.ibc1 true) ORDERED
            Examples.coldStartObs 11%N 21%N
            (Examples.response INIT 11%N)
            (Examples.response UNINITIALIZED 21%N) _ _ _ _ _)).
  - reflexivity.
  - reflexivity.
  - reflexivity.
  - reflexivity.
  - left. cbn. discriminate.
Defined.

(** C2, as stated, fails on the earlier file: with nothing started at the
    pinned heights and src already in INIT at its latest height, that file
    still returns a batch carrying ChanOpenInit. *)
Lemma legacy_step_acts_on_state_in_transition :
  ~ (forall (n : nat) (S : State -> string) (w : World)
       (src dst : ProvableChain) (ord : Order) (o : Spec.Observation)
       (sh dh : Height) (srcLatest dstLatest : QueryChannelResponse),
       Spec.observe n w src dst = Ok o ->
       LatestHeight src = Ok sh ->
       LatestHeight dst = Ok dh ->
       QueryChannelPair w (NewQueryContext sh) (NewQueryContext dh)
       = Ok (srcLatest, dstLatest) ->
       Spec.disagree o srcLatest dstLatest ->
       ChannelLegacy.createChannelStep n S w src dst ord = Ok NewRelayMsgs).
Proof.
  intros H.
  specialize (H Examples.rtyAttNum Examples.State_String Examples.inTransition
                (Examples.ibc0 true) (Examples.ibc1 true) ORDERED
                Examples.coldStartObs 11%N 21%N
                (Examples.response INIT 11%N)
                (Examples.response UNINITIALIZED 21%N)
                eq_refl eq_refl eq_refl eq_refl).
  assert (Hd : Spec.disagree Examples.coldStartObs
                 (Examples.response INIT 11%N)
                 (Examples.response UNINITIALIZED 21%N))
    by (left; cbn; discriminate).
  specialize (H Hd).
  cbn in H. discriminate H.
Qed.

Example legacy_step_in_transition_value :
  ChannelLegacy.createChannelStep Examples.rtyAttNum Examples.State_String
    Examples.inTransition (Examples.ibc0 true) (Examples.ibc1 true) ORDERED
  = Ok {| Src := [MsgChannelOpenInit Examples.path0 Examples.path1 "cosmos1src"];
          Dst := []; Last := false; Succeeded := false |}.
Proof. reflexivity. Qed.

(** ** Properties of the driver *)

Lemma ready_src_snoc (out : RelayMsgs) (xs : list Msg) (m : Msg) :
  Ready (setSrc out (xs ++ [m])) = true.
Proof.
  unfold Ready. cbn [Src setSrc]. rewrite length_app. cbn [List.length].
  rewrite Nat.add_1_r. reflexivity.
Qed.

Lemma ready_dst_snoc (out : RelayMsgs) (xs : list Msg) (m : Msg) :
  Ready (setDst out (xs ++ [m])) = true.
Proof.
  unfold Ready. cbn [Dst setDst]. rewrite length_app. cbn [List.length].
  rewrite Nat.add_1_r. cbn [Nat.eqb]. now rewrite andb_false_r.
Qed.

Lemma ready_setLast (out : RelayMsgs) (b : bool) :
  Ready (setLast out b) = Ready out.
Proof. reflexivity. Qed.

(** Every batch the earlier file's evaluator returns carries a handshake
    message, so it is ready: the [break] of that file's driver is never
    reached. *)
Lemma legacy_step_always_ready (n : nat) (S : State -> string) (w : World)
    (src dst : ProvableChain) (ord : Order) (out : RelayMsgs) :
  ChannelLegacy.createChannelStep n S w src dst ord = Ok out ->
  Ready out = true.
Proof.
  unfold ChannelLegacy.createChannelStep.
  destruct (validatePaths w); [discriminate|].
  destruct (NewSyncHeaders w); cbn [bind]; try discriminate.
  destruct (retry_Do _ _ _ _ _ _) as [[v [e|]]| |]; cbn [bind]; try discriminate.
  destruct (QueryChannelPair _ _ _) as [[sc dc]| |]; cbn [bind]; try discriminate.
  repeat match goal with
  | |- context [if (?a && ?b)%bool then _ else _] => destruct (a && b)%bool
  end; try discriminate;
  (destruct (mustGetAddress _ _); cbn [bind]; try discriminate);
  intros H; injection H as <-; cbv zeta;
  rewrite ?ready_setLast;
  first [reflexivity | apply ready_src_snoc | apply ready_dst_snoc].
Qed.

(** *** Both loops are runs of their bodies *)

Lemma channel_loop_run (n : nat) (S : State -> string) (ord : Order)
    (ticks : list Tick) :
  forall f, Channel.loop n S ord f ticks
            = Spec.run (Channel.loopBody n S ord) f ticks.
Proof.
  induction ticks as [|t rest IH]; intros f; cbn [Channel.loop Spec.run].
  - reflexivity.
  - destruct (Channel.loopBody n S ord f t) as [[f'|err|v] fx];
      [rewrite IH|..]; reflexivity.
Qed.

Lemma legacy_loop_run (n : nat) (S : State -> string) (ord : Order)
    (ticks : list Tick) :
  forall f, ChannelLegacy.loop n S ord f ticks
            = Spec.run (ChannelLegacy.loopBody n S ord) f ticks.
Proof.
  induction ticks as [|t rest IH]; intros f; cbn [ChannelLegacy.loop Spec.run].
  - reflexivity.
  - destruct (ChannelLegacy.loopBody n S ord f t) as [[f'|err|v] fx];
      [rewrite IH|..]; reflexivity.
Qed.

(** *** Each loop body refines the driver of the specification *)

Lemma channel_loopBody_refines (n : nat) (S : State -> string) (ord : Order)
    (f : nat) (t : Tick) :
  fst (Channel.loopBody n S ord f t)
  = Spec.driverStep false (Spec.channelFailed t) f
      (Spec.kindOf
         (Channel.createChannelStep n S (world t) (src t) (dst t) ord) t).
Proof.
  unfold Channel.loopBody, Spec.kindOf.
  destruct (Channel.createChannelStep n S (world t) (src t) (dst t) ord)
    as [out|e|v]; [|reflexivity|reflexivity].
  destruct (Ready out); cbn [negb]; [|reflexivity].
  destruct (RelayMsgs_Send out (src t) (dst t)) as [sent fx]. cbn [fst].
  destruct (Success sent), (Last sent); cbn [andb negb Spec.driverStep];
    try reflexivity;
    destruct (2 <? Datatypes.S f)%nat; reflexivity.
Qed.

Lemma legacy_loopBody_refines (n : nat) (S : State -> string) (ord : Order)
    (f : nat) (t : Tick) :
  fst (ChannelLegacy.loopBody n S ord f t)
  = Spec.driverStep true (Spec.channelFailedLegacy t) f
      (Spec.kindOf
         (ChannelLegacy.createChannelStep n S (world t) (src t) (dst t) ord) t).
Proof.
  unfold ChannelLegacy.loopBody, Spec.kindOf.
  destruct (ChannelLegacy.createChannelStep n S (world t) (src t) (dst t) ord)
    as [out|e|v]; [|reflexivity|reflexivity].
  destruct (Ready out); cbn [negb]; [|reflexivity].
  destruct (RelayMsgs_Send out (src t) (dst t)) as [sent fx]. cbn [fst].
  destruct (Success sent), (Last sent); cbn [andb negb Spec.driverStep];
    try reflexivity;
    destruct (2 <? Datatypes.S f)%nat; reflexivity.
Qed.

(** *** Runs of a body that refines the driver of the specification *)

Section Runs.

Variable body : nat -> Tick -> LoopResult * list Effect.
Variable stopOnWait : bool.
Variable failure : Tick -> Error.
Variable kind : Tick -> Spec.TickKind.

Hypothesis body_refines :
  forall f t, fst (body f t) = Spec.driverStep stopOnWait (failure t) f (kind t).

Lemma run_app (f : nat) (xs ys : list Tick) :
  Spec.run body f (xs ++ ys)
  = match Spec.run body f xs with
    | (Running f', fx) =>
        let '(st, fx') := Spec.run body f' ys in (st, fx ++ fx')
    | stopped => stopped
    end.
Proof.
  revert f. induction xs as [|t xs IH]; intros f; cbn [app Spec.run].
  - destruct (Spec.run body f ys). reflexivity.
  - destruct (body f t) as [[f'|err|v] fx]; try reflexivity.
    rewrite IH.
    destruct (Spec.run body f' xs) as [[f''|err|v] fx1]; try reflexivity.
    destruct (Spec.run body f'' ys) as [st fx2].
    now rewrite app_assoc.
Qed.

Lemma run_snoc_state (f : nat) (xs : list Tick) (t : Tick) :
  fst (Spec.run body f (xs ++ [t]))
  = match fst (Spec.run body f xs) with
    | Running f' => Spec.stateOf (fst (body f' t))
    | stopped => stopped
    end.
Proof.
  rewrite run_app.
  destruct (Spec.run body f xs) as [[f'|err|v] fx]; try reflexivity.
  cbn [Spec.run fst].
  destruct (body f' t) as [[f''|err|v] fx1]; reflexivity.
Qed.

Lemma run_stopped (f : nat) (xs more : list Tick) :
  (forall f', fst (Spec.run body f xs) <> Running f') ->
  Spec.run body f (xs ++ more) = Spec.run body f xs.
Proof.
  intros Hstop. rewrite run_app.
  destruct (Spec.run body f xs) as [[f'|err|v] fx]; try reflexivity.
  exfalso. exact (Hstop f' eq_refl).
Qed.

Lemma streak_snoc (ks : list Spec.TickKind) (k : Spec.TickKind) :
  Spec.streak (ks ++ [k])
  = match k with
    | Spec.Rejected => Datatypes.S (Spec.streak ks)
    | Spec.Waiting => Spec.streak ks
    | _ => 0
    end.
Proof.
  unfold Spec.streak. rewrite rev_app_distr. cbn [rev app].
  destruct k; reflexivity.
Qed.

Lemma run_counts_streak (xs : list Tick) :
  forall f, fst (Spec.run body 0 xs) = Running f ->
            f = Spec.streak (map kind xs) /\ f < 3.
Proof.
  induction xs as [|t xs IH] using rev_ind; intros f Hrun.
  - cbn in Hrun. injection Hrun as <-. cbn. split; [reflexivity|lia].
  - rewrite run_snoc_state in Hrun.
    destruct (fst (Spec.run body 0 xs)) as [f'|err|v]; try discriminate.
    destruct (IH f' eq_refl) as [Hf' Hlt].
    rewrite body_refines in Hrun.
    rewrite map_app. cbn [map]. rewrite streak_snoc.
    destruct (kind t) as [e|v| |[|]|]; cbn in Hrun; try discriminate.
    + destruct stopOnWait; [discriminate|].
      injection Hrun as <-. split; [exact Hf'|exact Hlt].
    + injection Hrun as <-. split; [reflexivity|lia].
    + destruct f' as [|[|f']]; cbn in Hrun; try discriminate;
        injection Hrun as <-; subst; split; try reflexivity; try lia;
        congruence.
Qed.

Lemma run_after_accepted (xs : list Tick) (t : Tick) (f : nat) :
  fst (Spec.run body 0 xs) = Running f ->
  kind t = Spec.Accepted false ->
  fst (Spec.run body 0 (xs ++ [t])) = Running 0.
Proof.
  intros Hrun Hk. rewrite run_snoc_state, Hrun, body_refines, Hk. reflexivity.
Qed.

Lemma run_after_rejected (xs : list Tick) (t : Tick) (f : nat) :
  fst (Spec.run body 0 xs) = Running f ->
  kind t = Spec.Rejected ->
  fst (Spec.run body 0 (xs ++ [t]))
  = if (f =? 2)%nat then Returned (Some (failure t))
    else Running (Datatypes.S f).
Proof.
  intros Hrun Hk.
  destruct (run_counts_streak xs f Hrun) as [_ Hlt].
  rewrite run_snoc_state, Hrun, body_refines, Hk.
  destruct f as [|[|[|f]]]; try reflexivity. lia.
Qed.

Lemma run_over_after_third (xs more : list Tick) (t : Tick) :
  fst (Spec.run body 0 xs) = Running 2 ->
  kind t = Spec.Rejected ->
  Spec.run body 0 (xs ++ t :: more) = Spec.run body 0 (xs ++ [t]).
Proof.
  intros Hrun Hk.
  change (t :: more) with ([t] ++ more). rewrite app_assoc.
  apply run_stopped. intros f'.
  rewrite (run_after_rejected xs t 2 Hrun Hk). discriminate.
Qed.

End Runs.

(** C3. On every tick on which the evaluator returns a batch that is not
    ready the driver submits nothing, leaves the failure counter as it is and
    goes on to the next tick; over any number of such ticks it is still
    running and has done nothing.  Such ticks exist only in the file with the
    finality re-check: every batch the evaluator of the earlier file returns
    is ready. *)
Theorem CreateChannel_waits_while_not_ready
    (n : nat) (S : State -> string) (ordered : bool) (ticks : list Tick) :
  Forall (fun t => exists out,
            Channel.createChannelStep n S (world t) (src t) (dst t)
              (if ordered then ORDERED else UNORDERED) = Ok out
            /\ Ready out = false) ticks ->
  Channel.CreateChannel n S ticks ordered = (Running 0, [])
  /\ (forall f t, In t ticks ->
        Channel.loopBody n S (if ordered then ORDERED else UNORDERED) f t
        = (Continue f, []))
  /\ (forall f,
        Channel.loop n S (if ordered then ORDERED else UNORDERED) f ticks
        = (Running f, []))
  /\ (forall w src dst ord out,
        ChannelLegacy.createChannelStep n S w src dst ord = Ok out ->
        Ready out = true).
Proof.
  intros Hwait.
  set (ord := if ordered then ORDERED else UNORDERED) in *.
  assert (Hbody : forall f t, In t ticks ->
            Channel.loopBody n S ord f t = (Continue f, [])).
  { intros f t Hin. rewrite Forall_forall in Hwait.
    destruct (Hwait t Hin) as [out [Hout Hready]].
    unfold Channel.loopBody. rewrite Hout, Hready. reflexivity. }
  assert (Hloop : forall f, Channel.loop n S ord f ticks = (Running f, [])).
  { clear Hwait. induction ticks as [|t rest IH]; intros f.
    - reflexivity.
    - cbn [Channel.loop]. rewrite (Hbody f t (or_introl eq_refl)).
      rewrite IH; [reflexivity|].
      intros f' t' Hin. apply Hbody. right. exact Hin. }
  repeat split.
  - unfold Channel.CreateChannel. apply Hloop.
  - exact Hbody.
  - exact Hloop.
  - intros w src dst ord' out. apply legacy_step_always_ready.
Qed.

Lemma CreateChannel_waits_while_not_ready_witness :
  Channel.CreateChannel Examples.rtyAttNum Examples.State_String
    [Examples.waitingTick; Examples.waitingTick; Examples.waitingTick] true
  = (Running 0, []).
Proof.
  refine (proj1 (CreateChannel_waits_while_not_ready
            Examples.rtyAttNum Examples.State_String true
            [Examples.waitingTick; Examples.waitingTick; Examples.waitingTick]
            _)).
  repeat constructor; exists NewRelayMsgs; split; reflexivity.
Defined.

(** C4. The failure counter of [CreateChannel] starts at zero; while the
    driver runs it equals the number of submissions rejected in a row, which
    is below three; an accepted submission that is not the last step resets it
    to zero; a rejected one increments it, and the driver returns its terminal
    error exactly when the rejected submission is the third in a row, after
    which no further tick is processed. *)
Theorem CreateChannel_failure_cap
    (n : nat) (S : State -> string) (ordered : bool) (ticks : list Tick) :
  fst (Channel.CreateChannel n S [] ordered) = Running 0
  /\ fst (ChannelLegacy.CreateChannel n S [] ordered) = Running 0
  /\ (forall f,
        fst (Channel.CreateChannel n S ticks ordered) = Running f ->
        let kind t :=
          Spec.kindOf
            (Channel.createChannelStep n S (world t) (src t) (dst t)
               (if ordered then ORDERED else UNORDERED)) t in
        f = Spec.streak (map kind ticks) /\ f < 3
        /\ forall t,
             (kind t = Spec.Accepted false ->
              fst (Channel.CreateChannel n S (ticks ++ [t]) ordered)
              = Running 0)
             /\ (kind t = Spec.Rejected ->
                 fst (Channel.CreateChannel n S (ticks ++ [t]) ordered)
                 = if (f =? 2)%nat then Returned (Some (Spec.channelFailed t))
                   else Running (Datatypes.S f))
             /\ (kind t = Spec.Rejected -> f = 2 ->
                 forall more,
                   Channel.CreateChannel n S (ticks ++ t :: more) ordered
                   = Channel.CreateChannel n S (ticks ++ [t]) ordered))
  /\ (forall f,
        fst (ChannelLegacy.CreateChannel n S ticks ordered) = Running f ->
        let kind t :=
          Spec.kindOf
            (ChannelLegacy.createChannelStep n S (world t) (src t) (dst t)
               (if ordered then ORDERED else UNORDERED)) t in
        f = Spec.streak (map kind ticks) /\ f < 3
        /\ forall t,
             (kind t = Spec.Accepted false ->
              fst (ChannelLegacy.CreateChannel n S (ticks ++ [t]) ordered)
              = Running 0)
             /\ (kind t = Spec.Rejected ->
                 fst (ChannelLegacy.CreateChannel n S (ticks ++ [t]) ordered)
                 = if (f =? 2)%nat
                   then Returned (Some (Spec.channelFailedLegacy t))
                   else Running (Datatypes.S f))
             /\ (kind t = Spec.Rejected -> f = 2 ->
                 forall more,
                   ChannelLegacy.CreateChannel n S (ticks ++ t :: more) ordered
                   = ChannelLegacy.CreateChannel n S (ticks ++ [t]) ordered)).
Proof.
  set (ord := if ordered then ORDERED else UNORDERED).
  split; [reflexivity|]. split; [reflexivity|]. split.
  - intros f Hrun. cbv zeta.
    unfold Channel.CreateChannel in *. fold ord in Hrun |- *.
    set (kind := fun t : Tick =>
           Spec.kindOf
             (Channel.createChannelStep n S (world t) (src t) (dst t) ord) t).
    rewrite channel_loop_run in Hrun.
    pose proof (channel_loopBody_refines n S ord) as Href.
    change (forall f t, fst (Channel.loopBody n S ord f t)
              = Spec.driverStep false (Spec.channelFailed t) f (kind t)) in Href.
    split; [|split].
    + exact (proj1 (run_counts_streak _ _ _ kind Href ticks f Hrun)).
    + exact (proj2 (run_counts_streak _ _ _ kind Href ticks f Hrun)).
    + intros t. rewrite !channel_loop_run. split; [|split].
      * intros Hk. exact (run_after_accepted _ _ _ kind Href ticks t f Hrun Hk).
      * intros Hk. exact (run_after_rejected _ _ _ kind Href ticks t f Hrun Hk).
      * intros Hk -> more. rewrite !channel_loop_run.
        exact (run_over_after_third _ _ _ kind Href ticks more t Hrun Hk).
  - intros f Hrun. cbv zeta.
    unfold ChannelLegacy.CreateChannel in *. fold ord in Hrun |- *.
    set (kind := fun t : Tick =>
           Spec.kindOf
             (ChannelLegacy.createChannelStep n S (world t) (src t) (dst t) ord) t).
    rewrite legacy_loop_run in Hrun.
    pose proof (legacy_loopBody_refines n S ord) as Href.
    change (forall f t, fst (ChannelLegacy.loopBody n S ord f t)
              = Spec.driverStep true (Spec.channelFailedLegacy t) f (kind t)) in Href.
    split; [|split].
    + exact (proj1 (run_counts_streak _ _ _ kind Href ticks f Hrun)).
    + exact (proj2 (run_counts_streak _ _ _ kind Href ticks f Hrun)).
    + intros t. rewrite !legacy_loop_run. split; [|split].
      * intros Hk. exact (run_after_accepted _ _ _ kind Href ticks t f Hrun Hk).
      * intros Hk. exact (run_after_rejected _ _ _ kind Href ticks t f Hrun Hk).
      * intros Hk -> more. rewrite !legacy_loop_run.
        exact (run_over_after_third _ _ _ kind Href ticks more t Hrun Hk).
Qed.

Lemma CreateChannel_failure_cap_witness :
  fst (Channel.CreateChannel Examples.rtyAttNum Examples.State_String
         ([Examples.coldStart false; Examples.coldStart false]
          ++ [Examples.coldStart false]) true)
  = Returned (Some (Spec.channelFailed (Examples.coldStart false))).
Proof.
  pose proof (proj1 (proj2 (proj2
    (CreateChannel_failure_cap Examples.rtyAttNum Examples.State_String true
       [Examples.coldStart false; Examples.coldStart false])))) as H.
  specialize (H 2 eq_refl). cbv zeta in H.
  destruct H as [_ [_ H]].
  exact (proj1 (proj2 (H (Examples.coldStart false))) eq_refl).
Defined.

(** *** The terminal error *)

Lemma string_app_assoc (a b c : string) :
  ((a ++ b) ++ c = a ++ (b ++ c))%string.
Proof.
  induction a as [|x a IH]; cbn; [reflexivity|now rewrite IH].
Qed.

Lemma prefix_app (id post : string) : String.prefix id (id ++ post) = true.
Proof.
  induction id as [|x id IH]; cbn.
  - destruct post; reflexivity.
  - destruct (ascii_dec x x) as [_|Hne]; [exact IH|now elim Hne].
Qed.

Lemma names_occurs (s id : string) : Spec.names s id -> Spec.occurs id s = true.
Proof.
  intros [pre [post ->]].
  induction pre as [|x pre IH]; cbn [append Spec.occurs].
  - destruct (id ++ post)%string eqn:E; cbn [Spec.occurs];
      rewrite <- E, prefix_app; reflexivity.
  - destruct (String.prefix id (String x (pre ++ id ++ post)));
      [reflexivity|exact IH].
Qed.

(** The terminal error of the file with the finality re-check names the chain
    ID, the channel ID and the port ID of both sides. *)
Lemma channelFailed_names_identifiers (t : Tick) :
  Spec.names (Spec.channelFailed t) (ChainID (src t))
  /\ Spec.names (Spec.channelFailed t) (ChannelID (Path (src t)))
  /\ Spec.names (Spec.channelFailed t) (PortID (Path (src t)))
  /\ Spec.names (Spec.channelFailed t) (ChainID (dst t))
  /\ Spec.names (Spec.channelFailed t) (ChannelID (Path (dst t)))
  /\ Spec.names (Spec.channelFailed t) (PortID (Path (dst t))).
Proof.
  set (c1 := ChainID (src t)). set (h1 := ChannelID (Path (src t))).
  set (p1 := PortID (Path (src t))). set (c2 := ChainID (dst t)).
  set (h2 := ChannelID (Path (dst t))). set (p2 := PortID (Path (dst t))).
  assert (E : Spec.channelFailed t
              = channelFailedf c1 h1 p1 c2 h2 p2) by reflexivity.
  rewrite E. unfold channelFailedf. repeat split.
  - exists "! Channel failed: ["%string,
      ("]chan{" ++ h1 ++ "}port{" ++ p1 ++ "} -> [" ++ c2 ++ "]chan{" ++ h2 ++
       "}port{" ++ p2 ++ "}")%string.
    reflexivity.
  - exists ("! Channel failed: [" ++ c1 ++ "]chan{")%string,
      ("}port{" ++ p1 ++ "} -> [" ++ c2 ++ "]chan{" ++ h2 ++
       "}port{" ++ p2 ++ "}")%string.
    repeat rewrite string_app_assoc. reflexivity.
  - exists ("! Channel failed: [" ++ c1 ++ "]chan{" ++ h1 ++ "}port{")%string,
      ("} -> [" ++ c2 ++ "]chan{" ++ h2 ++ "}port{" ++ p2 ++ "}")%string.
    repeat rewrite string_app_assoc. reflexivity.
  - exists ("! Channel failed: [" ++ c1 ++ "]chan{" ++ h1 ++ "}port{" ++ p1 ++
            "} -> [")%string,
      ("]chan{" ++ h2 ++ "}port{" ++ p2 ++ "}")%string.
    repeat rewrite string_app_assoc. reflexivity.
  - exists ("! Channel failed: [" ++ c1 ++ "]chan{" ++ h1 ++ "}port{" ++ p1 ++
            "} -> [" ++ c2 ++ "]chan{")%string,
      ("}port{" ++ p2 ++ "}")%string.
    repeat rewrite string_app_assoc. reflexivity.
  - exists ("! Channel failed: [" ++ c1 ++ "]chan{" ++ h1 ++ "}port{" ++ p1 ++
            "} -> [" ++ c2 ++ "]chan{" ++ h2 ++ "}port{")%string,
      "}"%string.
    repeat rewrite string_app_assoc. reflexivity.
Qed.

(** C6, on the code.  After three rejected submissions in a row the earlier
    file returns an error whose [chan{}] slots hold the client IDs and whose
    [port{}] slots hold the channel IDs: the port ID "transfer" occurs nowhere
    in it.  On the same run the file with the finality re-check names the
    channel and the port of both sides. *)
Theorem legacy_terminal_error_omits_port :
  fst (ChannelLegacy.CreateChannel Examples.rtyAttNum Examples.State_String
         [Examples.coldStart false; Examples.coldStart false;
          Examples.coldStart false] true)
  = Returned (Some
      "! Channel failed: [ibc0]chan{07-tendermint-0}port{channel-0} -> [ibc1]chan{07-tendermint-1}port{channel-1}")
  /\ ~ Spec.names
         "! Channel failed: [ibc0]chan{07-tendermint-0}port{channel-0} -> [ibc1]chan{07-tendermint-1}port{channel-1}"
         (PortID (Path (src (Examples.coldStart false))))
  /\ ~ Spec.names
         "! Channel failed: [ibc0]chan{07-tendermint-0}port{channel-0} -> [ibc1]chan{07-tendermint-1}port{channel-1}"
         (PortID (Path (dst (Examples.coldStart false))))
  /\ fst (Channel.CreateChannel Examples.rtyAttNum Examples.State_String
            [Examples.coldStart false; Examples.coldStart false;
             Examples.coldStart false] true)
     = Returned (Some
         "! Channel failed: [ibc0]chan{channel-0}port{transfer} -> [ibc1]chan{channel-1}port{transfer}").
Proof.
  split; [vm_compute; reflexivity|].
  split; [intros H; apply names_occurs in H; vm_compute in H; discriminate H|].
  split; [intros H; apply names_occurs in H; vm_compute in H; discriminate H|].
  vm_compute; reflexivity.
Qed.

(** ** Properties of the strategy runner *)

(** Whenever [RunStrategy] succeeds, the two listeners it started were handed
    the counterparty and the strategy, and neither holds the channel the
    handle sends on. *)
Lemma RunStrategy_listeners_hold_no_channel (w : Strategy.StrategyWorld)
    (src dst : string) (h : Strategy.Handle) (gs : list Strategy.Goroutine) :
  Strategy.RunStrategy w src dst = (Ok h, gs) ->
  h = Strategy.SendOn Strategy.doneChan
  /\ map Strategy.listener gs = [src; dst]
  /\ Strategy.signalled h gs = []
  /\ Strategy.invoke h gs = Strategy.Blocked.
Proof.
  unfold Strategy.RunStrategy.
  destruct (Strategy.NewSyncHeaders w); try discriminate.
  destruct (Strategy.UnrelayedSequences w); try discriminate.
  destruct (Strategy.RelayPackets w); try discriminate.
  intros H. injection H as <- <-. repeat split.
Qed.

(** C8, on the code.  After a successful [RunStrategy] the handle sends on a
    channel that neither listener was handed: invoking it reaches no
    goroutine, and the send blocks. *)
Theorem RunStrategy_handle_signals_nobody :
  Strategy.RunStrategy Examples.relayReady "ibc0" "ibc1"
  = (Ok (Strategy.SendOn Strategy.doneChan),
     [ {| Strategy.listener := "ibc0";
          Strategy.args := [Strategy.VChain "ibc1"; Strategy.VStrategy] |};
       {| Strategy.listener := "ibc1";
          Strategy.args := [Strategy.VChain "ibc0"; Strategy.VStrategy] |} ])
  /\ Strategy.signalled (Strategy.SendOn Strategy.doneChan)
       (snd (Strategy.RunStrategy Examples.relayReady "ibc0" "ibc1")) = []
  /\ Strategy.invoke (Strategy.SendOn Strategy.doneChan)
       (snd (Strategy.RunStrategy Examples.relayReady "ibc0" "ibc1"))
     = Strategy.Blocked.
Proof.
  repeat split.
Qed.

(** ** Further properties of the step evaluator *)

Lemma state_cases (s : State) :
  s = UNINITIALIZED \/ s = INIT \/ s = TRYOPEN \/ s = OPEN
  \/ ((s =? UNINITIALIZED) = false /\ (s =? INIT) = false
      /\ (s =? TRYOPEN) = false /\ (s =? OPEN) = false)%Z.
Proof.
  unfold UNINITIALIZED, INIT, TRYOPEN, OPEN.
  destruct (Z.eqb_spec s 0); [tauto|].
  destruct (Z.eqb_spec s 1); [tauto|].
  destruct (Z.eqb_spec s 2); [tauto|].
  destruct (Z.eqb_spec s 3); tauto.
Qed.

(** Every batch the earlier file's evaluator returns is the batch of one of
    the seven rows of the table. *)
Lemma legacy_step_inversion (n : nat) (S : State -> string) (w : World)
    (src dst : ProvableChain) (ord : Order) (out : RelayMsgs) :
  ChannelLegacy.createChannelStep n S w src dst ord = Ok out ->
  exists o a addr,
    Spec.observe n w src dst = Ok o
    /\ In ((Spec.srcState o, Spec.dstState o), a) Spec.table
    /\ GetAddress (Spec.receiver a src dst) = Ok addr
    /\ out = Spec.expectedBatch a src dst o addr.
Proof.
  unfold ChannelLegacy.createChannelStep, Spec.observe.
  destruct (validatePaths w); [discriminate|].
  destruct (NewSyncHeaders w); cbn [bind]; try discriminate.
  destruct (retry_Do _ _ _ _ _ _) as [[v [e|]]| |]; cbn [bind]; try discriminate.
  destruct (QueryChannelPair _ _ _) as [[sc dc]| |]; cbn [bind]; try discriminate.
  intros H.
  exists {| Spec.obsSrcChan := sc; Spec.obsDstChan := dc;
            Spec.obsSrcUpdateHeaders := srcUpdateHeaders v;
            Spec.obsDstUpdateHeaders := dstUpdateHeaders v |}.
  unfold Spec.srcState, Spec.dstState.
  cbn [Spec.obsSrcChan Spec.obsDstChan].
  remember (State_ (Channel sc)) as s eqn:Es.
  remember (State_ (Channel dc)) as d eqn:Ed.
  destruct (state_cases s) as [E|[E|[E|[E|(E1 & E2 & E3 & E4)]]]];
    [rewrite E in *; clear E ..| rewrite ?E1, ?E2, ?E3, ?E4 in H];
  (destruct (state_cases d) as [E|[E|[E|[E|(F1 & F2 & F3 & F4)]]]];
    [rewrite E in *; clear E ..| rewrite ?F1, ?F2, ?F3, ?F4 in H]);
  cbn - [UpdateClients mustGetAddress] in H; try discriminate H;
  match type of H with
  | context [mustGetAddress w ?c] =>
      unfold mustGetAddress in H;
      destruct (GetAddress c) as [addr|e|p] eqn:Hga;
      [|destruct (addressFailure w e)|];
      cbn [bind failed] in H; try discriminate H
  end;
  injection H as <-;
  eexists; exists addr;
  (split; [reflexivity|]);
  (split; [cbn [In Spec.table];
           first [ left; reflexivity
                 | right; left; reflexivity
                 | right; right; left; reflexivity
                 | right; right; right; left; reflexivity
                 | right; right; right; right; left; reflexivity
                 | right; right; right; right; right; left; reflexivity
                 | right; right; right; right; right; right; left; reflexivity ]
          |]);
  (split; [exact Hga|]);
  unfold Spec.expectedBatch, Spec.sideMsgs, Spec.handshakeMsg; cbn;
  try reflexivity;
  match goal with
  | |- context [List.length ?hs] => destruct hs; reflexivity
  end.
Qed.

(** What the evaluator with the finality re-check returns is the empty batch
    of a state in transition, or what the earlier evaluator returns. *)
Lemma channel_step_cases (n : nat) (S : State -> string) (w : World)
    (src dst : ProvableChain) (ord : Order) (out : RelayMsgs) :
  Channel.createChannelStep n S w src dst ord = Ok out ->
  exists o,
    Spec.observe n w src dst = Ok o
    /\ ((Channel.checkChannelFinality w src dst
           (Channel (Spec.obsSrcChan o)) (Channel (Spec.obsDstChan o))
         = Ok false /\ out = NewRelayMsgs)
        \/ (Channel.checkChannelFinality w src dst
              (Channel (Spec.obsSrcChan o)) (Channel (Spec.obsDstChan o))
            = Ok true
            /\ ChannelLegacy.createChannelStep n S w src dst ord = Ok out)).
Proof.
  unfold Channel.createChannelStep, ChannelLegacy.createChannelStep,
    Spec.observe.
  destruct (validatePaths w); [discriminate|].
  destruct (NewSyncHeaders w); cbn [bind]; try discriminate.
  destruct (retry_Do _ _ _ _ _ _) as [[v [e|]]| |]; cbn [bind]; try discriminate.
  destruct (QueryChannelPair _ _ _) as [[sc dc]| |]; cbn [bind]; try discriminate.
  intros H. eexists. split; [reflexivity|].
  cbn [Spec.obsSrcChan Spec.obsDstChan].
  destruct (Channel.checkChannelFinality w src dst (Channel sc) (Channel dc))
    as [[|]|e|p]; cbn [bind negb] in H; try discriminate H.
  - right. split; [reflexivity|exact H].
  - left. split; [reflexivity|]. now injection H as <-.
Qed.

(** X1. The table is complete: whenever [createChannelStep] returns a batch,
    the pinned states are one of the seven pairs of the table, the receiver's
    address resolved and the batch is the one of the table; the file with the
    finality re-check returns, besides, the empty batch, and only when the
    re-check reported a state in transition. *)
Theorem createChannelStep_only_table_batches
    (n : nat) (S : State -> string) (w : World) (src dst : ProvableChain)
    (ord : Order) (out : RelayMsgs) :
  (ChannelLegacy.createChannelStep n S w src dst ord = Ok out ->
   exists o a addr,
     Spec.observe n w src dst = Ok o
     /\ In ((Spec.srcState o, Spec.dstState o), a) Spec.table
     /\ GetAddress (Spec.receiver a src dst) = Ok addr
     /\ out = Spec.expectedBatch a src dst o addr)
  /\ (Channel.createChannelStep n S w src dst ord = Ok out ->
      exists o,
        Spec.observe n w src dst = Ok o
        /\ ((Channel.checkChannelFinality w src dst
               (Channel (Spec.obsSrcChan o)) (Channel (Spec.obsDstChan o))
             = Ok false /\ out = NewRelayMsgs)
            \/ (Channel.checkChannelFinality w src dst
                  (Channel (Spec.obsSrcChan o)) (Channel (Spec.obsDstChan o))
                = Ok true
                /\ exists a addr,
                     In ((Spec.srcState o, Spec.dstState o), a) Spec.table
                     /\ GetAddress (Spec.receiver a src dst) = Ok addr
                     /\ out = Spec.expectedBatch a src dst o addr))).
Proof.
  split.
  - apply legacy_step_inversion.
  - intros H.
    destruct (channel_step_cases n S w src dst ord out H) as [o [Hobs Hcase]].
    exists o. split; [exact Hobs|].
    destruct Hcase as [[Hfin ->]|[Hfin Hleg]]; [left; now split|right].
    split; [exact Hfin|].
    destruct (legacy_step_inversion n S w src dst ord out Hleg)
      as (o' & a & addr & Hobs' & Hin & Hga & ->).
    assert (o' = o) by congruence. subst o'.
    exists a, addr. repeat split; assumption.
Qed.

Lemma createChannelStep_only_table_batches_witness :
  exists o a addr,
    Spec.observe Examples.rtyAttNum Examples.dstAhead
      (Examples.ibc0 true) (Examples.ibc1 true) = Ok o
    /\ In ((Spec.srcState o, Spec.dstState o), a) Spec.table
    /\ GetAddress (Spec.receiver a (Examples.ibc0 true) (Examples.ibc1 true))
       = Ok addr
    /\ {| Src := [ MsgUpdateClient Examples.path0 "header1" "cosmos1src";
                   MsgUpdateClient Examples.path0 "header2" "cosmos1src";
                   MsgChannelOpenTry Examples.path0 Examples.path1
                     (Examples.response INIT 20%N) "cosmos1src" ];
          Dst := []; Last := false; Succeeded := false |}
       = Spec.expectedBatch a (Examples.ibc0 true) (Examples.ibc1 true) o addr.
Proof.
  exact (proj1 (createChannelStep_only_table_batches
                  Examples.rtyAttNum Examples.State_String Examples.dstAhead
                  (Examples.ibc0 true) (Examples.ibc1 true) UNORDERED _)
               eq_refl).
Defined.

Lemma expectedBatch_shape (a : Spec.Action) (src dst : ProvableChain)
    (o : Spec.Observation) (addr : Address) :
  let out := Spec.expectedBatch a src dst o addr in
  Succeeded out = false
  /\ ((Spec.updatesThenHandshake (Src out) /\ Dst out = [])
      \/ (Src out = [] /\ Spec.updatesThenHandshake (Dst out))).
Proof.
  assert (Hside : Spec.updatesThenHandshake (Spec.sideMsgs a src dst o addr)).
  { unfold Spec.sideMsgs. eexists _, _. split; [reflexivity|]. split.
    - destruct (Spec.withUpdates a); [|reflexivity].
      induction (Spec.pendingHeaders a o) as [|h hs IH]; [reflexivity|exact IH].
    - unfold Spec.handshakeMsg. destruct (Spec.message a); reflexivity. }
  unfold Spec.expectedBatch.
  destruct (Spec.side a); cbn; (split; [reflexivity|]); [left|right];
    split; auto.
Qed.

(** X2. A batch [createChannelStep] returns fills at most one side, and the
    side it fills holds update-client messages followed by exactly one
    handshake message, which comes last; the batch is not yet marked as
    succeeded.  The only batch with both sides empty is the one the finality
    re-check returns, and it is never marked as the last step. *)
Theorem createChannelStep_batch_shape
    (n : nat) (S : State -> string) (w : World) (src dst : ProvableChain)
    (ord : Order) (out : RelayMsgs) :
  (ChannelLegacy.createChannelStep n S w src dst ord = Ok out ->
   Succeeded out = false
   /\ ((Spec.updatesThenHandshake (Src out) /\ Dst out = [])
       \/ (Src out = [] /\ Spec.updatesThenHandshake (Dst out))))
  /\ (Channel.createChannelStep n S w src dst ord = Ok out ->
      Succeeded out = false
      /\ ((Src out = [] /\ Dst out = [] /\ Last out = false)
          \/ (Spec.updatesThenHandshake (Src out) /\ Dst out = [])
          \/ (Src out = [] /\ Spec.updatesThenHandshake (Dst out)))).
Proof.
  assert (Hleg : forall out',
            ChannelLegacy.createChannelStep n S w src dst ord = Ok out' ->
            Succeeded out' = false
            /\ ((Spec.updatesThenHandshake (Src out') /\ Dst out' = [])
                \/ (Src out' = [] /\ Spec.updatesThenHandshake (Dst out')))).
  { intros out' H.
    destruct (legacy_step_inversion n S w src dst ord out' H)
      as (o & a & addr & _ & _ & _ & ->).
    apply expectedBatch_shape. }
  split; [apply Hleg|].
  intros H.
  destruct (channel_step_cases n S w src dst ord out H)
    as [o [_ [[_ ->]|[_ Hl]]]].
  - split; [reflexivity|]. left. repeat split.
  - destruct (Hleg out Hl) as [Hs Hshape]. split; [exact Hs|]. right.
    exact Hshape.
Qed.

Lemma createChannelStep_batch_shape_witness :
  Spec.updatesThenHandshake
    [ MsgUpdateClient Examples.path0 "header1" "cosmos1src";
      MsgUpdateClient Examples.path0 "header2" "cosmos1src";
      MsgChannelOpenTry Examples.path0 Examples.path1
        (Examples.response INIT 20%N) "cosmos1src" ].
Proof.
  destruct (proj1 (createChannelStep_batch_shape
                     Examples.rtyAttNum Examples.State_String Examples.dstAhead
                     (Examples.ibc0 true) (Examples.ibc1 true) UNORDERED _)
                  eq_refl) as [_ [[H _]|[H _]]].
  - exact H.
  - discriminate H.
Defined.

Lemma sideMsgs_provenance (a : Spec.Action) (src dst : ProvableChain)
    (o : Spec.Observation) (addr : Address) (m : Msg) :
  In m (Spec.sideMsgs a src dst o addr) ->
  Spec.selfOf m = Path (Spec.receiver a src dst) /\ Spec.signerOf m = addr.
Proof.
  unfold Spec.sideMsgs. rewrite in_app_iff. intros [Hin|[<-|[]]].
  - destruct (Spec.withUpdates a); [|contradiction].
    rewrite in_map_iff in Hin. destruct Hin as [h [<- _]]. now split.
  - unfold Spec.handshakeMsg. destruct (Spec.message a); now split.
Qed.

(** X3. Every message of a returned batch is built on the path end of the
    chain it is submitted to and signed with the address that chain's
    [GetAddress] returned. *)
Theorem createChannelStep_messages_provenance
    (n : nat) (S : State -> string) (w : World) (src dst : ProvableChain)
    (ord : Order) (out : RelayMsgs) :
  Channel.createChannelStep n S w src dst ord = Ok out
  \/ ChannelLegacy.createChannelStep n S w src dst ord = Ok out ->
  (forall m, In m (Src out) ->
     Spec.selfOf m = Path src /\ GetAddress src = Ok (Spec.signerOf m))
  /\ (forall m, In m (Dst out) ->
        Spec.selfOf m = Path dst /\ GetAddress dst = Ok (Spec.signerOf m)).
Proof.
  assert (Hleg : ChannelLegacy.createChannelStep n S w src dst ord = Ok out ->
    (forall m, In m (Src out) ->
       Spec.selfOf m = Path src /\ GetAddress src = Ok (Spec.signerOf m))
    /\ (forall m, In m (Dst out) ->
          Spec.selfOf m = Path dst /\ GetAddress dst = Ok (Spec.signerOf m))).
  { intros H.
    destruct (legacy_step_inversion n S w src dst ord out H)
      as (o & a & addr & _ & _ & Hga & ->).
    unfold Spec.expectedBatch.
    pose proof (sideMsgs_provenance a src dst o addr) as Hp.
    unfold Spec.receiver in Hga, Hp.
    destruct (Spec.side a); cbn [Src Dst]; split; intros m Hin;
      try contradiction;
      destruct (Hp m Hin) as [Hself Hsig]; rewrite Hsig; now split. }
  intros [H|H]; [|exact (Hleg H)].
  destruct (channel_step_cases n S w src dst ord out H)
    as [o [_ [[_ ->]|[_ Hl]]]]; [|exact (Hleg Hl)].
  split; intros m Hin; contradiction.
Qed.

Lemma createChannelStep_messages_provenance_witness :
  Spec.selfOf (MsgUpdateClient Examples.path0 "header2" "cosmos1src")
  = Examples.path0
  /\ Ok "cosmos1src"
     = Ok (Spec.signerOf (MsgUpdateClient Examples.path0 "header2" "cosmos1src")).
Proof.
  refine (proj1 (createChannelStep_messages_provenance
                   Examples.rtyAttNum Examples.State_String Examples.dstAhead
                   (Examples.ibc0 true) (Examples.ibc1 true) UNORDERED _
                   (or_introl eq_refl))
                (MsgUpdateClient Examples.path0 "header2" "cosmos1src") _).
  cbn. tauto.
Defined.

(** X4. In the file with the finality re-check a returned batch is not ready
    exactly when it is the empty batch, and exactly when the re-check found
    the state of one of the channels in transition. *)
Theorem createChannelStep_not_ready_iff_in_transition
    (n : nat) (S : State -> string) (w : World) (src dst : ProvableChain)
    (ord : Order) (out : RelayMsgs) :
  Channel.createChannelStep n S w src dst ord = Ok out ->
  (Ready out = false <-> out = NewRelayMsgs)
  /\ (Ready out = false <->
      exists o,
        Spec.observe n w src dst = Ok o
        /\ Channel.checkChannelFinality w src dst
             (Channel (Spec.obsSrcChan o)) (Channel (Spec.obsDstChan o))
           = Ok false).
Proof.
  intros H.
  destruct (channel_step_cases n S w src dst ord out H)
    as [o [Hobs [[Hfin ->]|[Hfin Hl]]]].
  - split; split; intros _; try reflexivity. exists o. now split.
  - pose proof (legacy_step_always_ready n S w src dst ord out Hl) as Hr.
    split; split.
    + intros Hn. congruence.
    + intros ->. discriminate Hr.
    + intros Hn. congruence.
    + intros [o' [Hobs' Hfin']].
      assert (o' = o) by congruence. subst o'. congruence.
Qed.

Lemma createChannelStep_not_ready_iff_in_transition_witness :
  Ready NewRelayMsgs = false <->
  exists o,
    Spec.observe Examples.rtyAttNum Examples.inTransition
      (Examples.ibc0 true) (Examples.ibc1 true) = Ok o
    /\ Channel.checkChannelFinality Examples.inTransition
         (Examples.ibc0 true) (Examples.ibc1 true)
         (Channel (Spec.obsSrcChan o)) (Channel (Spec.obsDstChan o))
       = Ok false.
Proof.
  exact (proj2 (createChannelStep_not_ready_iff_in_transition
                  Examples.rtyAttNum Examples.State_String
                  Examples.inTransition
                  (Examples.ibc0 true) (Examples.ibc1 true) ORDERED
                  NewRelayMsgs eq_refl)).
Defined.

(** X5. The two evaluators agree on everything the driver acts on: a ready
    batch returned by the file with the finality re-check is the batch the
    earlier file returns, and whenever the re-check passes the two files
    return the same result, be it a batch, an error or a panic. *)
Theorem createChannelStep_variants_agree
    (n : nat) (S : State -> string) (w : World) (src dst : ProvableChain)
    (ord : Order) :
  (forall out,
     Channel.createChannelStep n S w src dst ord = Ok out ->
     Ready out = true ->
     ChannelLegacy.createChannelStep n S w src dst ord = Ok out)
  /\ (forall o,
        Spec.observe n w src dst = Ok o ->
        Channel.checkChannelFinality w src dst
          (Channel (Spec.obsSrcChan o)) (Channel (Spec.obsDstChan o))
        = Ok true ->
        Channel.createChannelStep n S w src dst ord
        = ChannelLegacy.createChannelStep n S w src dst ord).
Proof.
  split.
  - intros out H Hr.
    destruct (channel_step_cases n S w src dst ord out H)
      as [o [_ [[_ ->]|[_ Hl]]]]; [discriminate Hr|exact Hl].
  - intros o Hobs Hfin. exact (legacy_step_from_finalized n S w src dst ord o Hobs Hfin).
Qed.

Lemma createChannelStep_variants_agree_witness :
  ChannelLegacy.createChannelStep Examples.rtyAttNum Examples.State_String
    Examples.dstAhead (Examples.ibc0 true) (Examples.ibc1 true) ORDERED
  = Ok (Spec.expectedBatch Examples.tryOnSrc (Examples.ibc0 true)
          (Examples.ibc1 true) Examples.dstAheadObs "cosmos1src").
Proof.
  exact (proj1 (createChannelStep_variants_agree
                  Examples.rtyAttNum Examples.State_String Examples.dstAhead
                  (Examples.ibc0 true) (Examples.ibc1 true) ORDERED)
               _ eq_refl eq_refl).
Defined.

(** ** Properties of the finality check *)

(** X6. Once both latest heights and the re-query at them are obtained,
    [checkChannelFinality] answers true exactly when the state of both
    channel ends equals the state re-observed, and false otherwise; nothing
    but the state of a channel end is compared. *)
Theorem checkChannelFinality_compares_states
    (w : World) (src dst : ProvableChain) (srcChannel dstChannel : ChannelEnd)
    (sh dh : Height) (srcLatest dstLatest : QueryChannelResponse) :
  LatestHeight src = Ok sh ->
  LatestHeight dst = Ok dh ->
  QueryChannelPair w (NewQueryContext sh) (NewQueryContext dh)
  = Ok (srcLatest, dstLatest) ->
  (Channel.checkChannelFinality w src dst srcChannel dstChannel = Ok true <->
   State_ srcChannel = State_ (Channel srcLatest)
   /\ State_ dstChannel = State_ (Channel dstLatest))
  /\ (Channel.checkChannelFinality w src dst srcChannel dstChannel = Ok false <->
      State_ srcChannel <> State_ (Channel srcLatest)
      \/ State_ dstChannel <> State_ (Channel dstLatest))
  /\ (forall srcChannel' dstChannel',
        State_ srcChannel' = State_ srcChannel ->
        State_ dstChannel' = State_ dstChannel ->
        Channel.checkChannelFinality w src dst srcChannel' dstChannel'
        = Channel.checkChannelFinality w src dst srcChannel dstChannel).
Proof.
  intros Hsh Hdh Hq.
  unfold Channel.checkChannelFinality. rewrite Hsh, Hdh. cbn [bind].
  rewrite Hq. cbn [bind].
  split; [|split].
  - destruct (Z.eqb_spec (State_ srcChannel) (State_ (Channel srcLatest)));
      destruct (Z.eqb_spec (State_ dstChannel) (State_ (Channel dstLatest)));
      cbn [negb]; split; intros H; try discriminate H; tauto.
  - destruct (Z.eqb_spec (State_ srcChannel) (State_ (Channel srcLatest)));
      destruct (Z.eqb_spec (State_ dstChannel) (State_ (Channel dstLatest)));
      cbn [negb]; split; intros H; try discriminate H; tauto.
  - intros srcChannel' dstChannel' -> ->. reflexivity.
Qed.

Lemma checkChannelFinality_compares_states_witness :
  Channel.checkChannelFinality Examples.inTransition
    (Examples.ibc0 true) (Examples.ibc1 true)
    {| State_ := UNINITIALIZED; Ordering := ORDERED |}
    {| State_ := UNINITIALIZED; Ordering := ORDERED |} = Ok false.
Proof.
  apply (proj1 (proj2 (checkChannelFinality_compares_states
                  Examples.inTransition (Examples.ibc0 true)
                  (Examples.ibc1 true)
                  {| State_ := UNINITIALIZED; Ordering := ORDERED |}
                  {| State_ := UNINITIALIZED; Ordering := ORDERED |}
                  11%N 21%N (Examples.response INIT 11%N)
                  (Examples.response UNINITIALIZED 21%N)
                  eq_refl eq_refl eq_refl))).
  left. cbn. discriminate.
Defined.

(** X7. A finality check that cannot be made is an error of the evaluation,
    not a wait: when the observations are made and then the latest height of
    src, the latest height of dst or the re-query fails, [createChannelStep]
    returns that error, whatever the pinned states are. *)
Theorem createChannelStep_finality_query_error
    (n : nat) (S : State -> string) (w : World) (src dst : ProvableChain)
    (ord : Order) (o : Spec.Observation) (e : Error) :
  Spec.observe n w src dst = Ok o ->
  LatestHeight src = Err e
  \/ (exists sh, LatestHeight src = Ok sh /\ LatestHeight dst = Err e)
  \/ (exists sh dh,
        LatestHeight src = Ok sh /\ LatestHeight dst = Ok dh
        /\ QueryChannelPair w (NewQueryContext sh) (NewQueryContext dh) = Err e) ->
  Channel.checkChannelFinality w src dst
    (Channel (Spec.obsSrcChan o)) (Channel (Spec.obsDstChan o)) = Err e
  /\ Channel.createChannelStep n S w src dst ord = Err e.
Proof.
  intros Hobs Hfail.
  assert (Hfin : forall cs cd,
            Channel.checkChannelFinality w src dst cs cd = Err e).
  { intros cs cd. unfold Channel.checkChannelFinality.
    destruct Hfail as [Hs|[[sh [Hs Hd]]|[sh [dh [Hs [Hd Hq]]]]]].
    - rewrite Hs. reflexivity.
    - rewrite Hs, Hd. reflexivity.
    - rewrite Hs, Hd. cbn [bind]. rewrite Hq. reflexivity. }
  split; [apply Hfin|].
  unfold Channel.createChannelStep.
  replay_observe Hobs. rewrite Hfin. reflexivity.
Qed.

Lemma createChannelStep_finality_query_error_witness :
  Channel.createChannelStep Examples.rtyAttNum Examples.State_String
    Examples.dstAhead
    (Spec.withLatestHeight (Examples.ibc0 true) (Err "rpc unavailable"))
    (Examples.ibc1 true) ORDERED
  = Err "rpc unavailable".
Proof.
  exact (proj2 (createChannelStep_finality_query_error
                  Examples.rtyAttNum Examples.State_String Examples.dstAhead
                  (Spec.withLatestHeight (Examples.ibc0 true)
                     (Err "rpc unavailable"))
                  (Examples.ibc1 true) ORDERED Examples.dstAheadObs
                  "rpc unavailable" eq_refl (or_introl eq_refl))).
Defined.

(** ** Properties of the retried header set-up *)

(** When the calls before call [k + j] fail with a refresh that succeeds and
    call [k + j] succeeds, [retry.Do] ends without an error, holding the
    headers of that call and the synchronizer of the last refresh. *)
Lemma retry_Do_recovers (w : World) (attempts : nat) :
  forall (j k : nat) (st : RetryVars) (last : option Error)
         (hs : list Header * list Header),
  j < attempts ->
  (forall i, k <= i < k + j -> Spec.setupError w i <> None) ->
  (forall i, k <= i < k + j -> exists sh, Updates w i = Ok sh) ->
  SetupBothHeadersForUpdate w (k + j) = Ok hs ->
  exists shj,
    (j = 0 -> shj = sh_ st)
    /\ (forall j', j = Datatypes.S j' -> Updates w (k + j') = Ok shj)
    /\ retry_Do (setupHeaders w) (refreshHeaders w) attempts k st last
       = Ok ({| sh_ := shj; srcUpdateHeaders := fst hs;
                dstUpdateHeaders := snd hs |}, None).
Proof.
  induction attempts as [|m IH]; intros j k st last hs Hj Hfail Hupd Hok;
    [lia|].
  cbn [retry_Do]. destruct j as [|j'].
  - rewrite Nat.add_0_r in Hok. exists (sh_ st).
    split; [reflexivity|]. split; [intros j' Hj'; discriminate Hj'|].
    unfold setupHeaders at 1. rewrite Hok. destruct hs as [s d]. reflexivity.
  - assert (Hk : k <= k < k + Datatypes.S j') by lia.
    pose proof (Hfail k Hk) as Hf. destruct (Hupd k Hk) as [sh' Hu].
    unfold Spec.setupError in Hf. unfold setupHeaders at 1.
    destruct (SetupBothHeadersForUpdate w k) as [[s d]|e|p] eqn:Hs;
      try congruence.
    cbn [bind]. unfold refreshHeaders at 1. rewrite Hu. cbn [bind].
    cbn [srcUpdateHeaders dstUpdateHeaders].
    destruct (IH j' (Datatypes.S k)
                {| sh_ := sh'; srcUpdateHeaders := []; dstUpdateHeaders := [] |}
                (Some e) hs) as [shj [H0 [HS Hrun]]].
    + lia.
    + intros i Hi. apply Hfail. lia.
    + intros i Hi. apply Hupd. lia.
    + replace (Datatypes.S k + j') with (k + Datatypes.S j') by lia. exact Hok.
    + exists shj. split; [intros Hz; discriminate Hz|]. split; [|exact Hrun].
      intros j'' Hj''. injection Hj'' as <-.
      destruct j' as [|j3].
      * rewrite Nat.add_0_r, Hu. now rewrite (H0 eq_refl).
      * replace (k + Datatypes.S j3) with (Datatypes.S k + j3) by lia.
        exact (HS j3 eq_refl).
Qed.

(** X8. The retry is transparent: when the first [j] calls of the header
    set-up fail, each followed by a refresh that succeeds, and call [j], still
    within the [rtyAttNum] attempts, succeeds, the evaluation goes on as if
    the synchronizer had been the one of the last refresh from the start and
    the set-up had succeeded at once; no later call is made. *)
Theorem createChannelStep_retry_recovers
    (n : nat) (S : State -> string) (w : World) (src dst : ProvableChain)
    (ord : Order) (sh0 : SyncHeaders) (j : nat)
    (hs : list Header * list Header) :
  validatePaths w = None ->
  NewSyncHeaders w = Ok sh0 ->
  j < n ->
  (forall i, i < j -> Spec.setupError w i <> None) ->
  (forall i, i < j -> exists sh, Updates w i = Ok sh) ->
  SetupBothHeadersForUpdate w j = Ok hs ->
  exists shj,
    (j = 0 -> shj = sh0)
    /\ (forall j', j = Datatypes.S j' -> Updates w j' = Ok shj)
    /\ Channel.createChannelStep n S w src dst ord
       = Channel.createChannelStep 1 S (Spec.settled w shj hs) src dst ord
    /\ ChannelLegacy.createChannelStep n S w src dst ord
       = ChannelLegacy.createChannelStep 1 S (Spec.settled w shj hs) src dst ord.
Proof.
  intros Hval Hsh Hj Hfail Hupd Hok.
  destruct (retry_Do_recovers w n j 0
              {| sh_ := sh0; srcUpdateHeaders := []; dstUpdateHeaders := [] |}
              None hs Hj) as [shj [H0 [HS Hrun]]].
  - intros i Hi. apply Hfail. lia.
  - intros i Hi. apply Hupd. lia.
  - exact Hok.
  - exists shj. split; [exact H0|]. split; [exact HS|].
    unfold Channel.createChannelStep, ChannelLegacy.createChannelStep.
    cbn [validatePaths NewSyncHeaders Spec.settled QueryChannelPair].
    rewrite Hval, Hsh. cbn [bind]. rewrite Hrun.
    cbn [retry_Do]. unfold setupHeaders.
    cbn [SetupBothHeadersForUpdate Spec.settled].
    destruct hs as [s d]. cbn [bind fst snd sh_]. split; reflexivity.
Qed.

Lemma retry_Do_refresh_panics (w : World) (attempts : nat) :
  forall (j k : nat) (st : RetryVars) (last : option Error) (e : Error),
  j < attempts ->
  (forall i, k <= i <= k + j -> Spec.setupError w i <> None) ->
  (forall i, k <= i < k + j -> exists sh, Updates w i = Ok sh) ->
  Updates w (k + j) = Err e ->
  retry_Do (setupHeaders w) (refreshHeaders w) attempts k st last = Panic e.
Proof.
  induction attempts as [|m IH]; intros j k st last e Hj Hfail Hupd Hbad;
    [lia|].
  cbn [retry_Do].
  assert (Hk : k <= k <= k + j) by lia.
  pose proof (Hfail k Hk) as Hf.
  unfold Spec.setupError in Hf. unfold setupHeaders at 1.
  destruct (SetupBothHeadersForUpdate w k) as [[s d]|e'|p] eqn:Hs;
    try congruence.
  cbn [bind]. unfold refreshHeaders at 1.
  destruct j as [|j'].
  - rewrite Nat.add_0_r in Hbad. rewrite Hbad. reflexivity.
  - destruct (Hupd k) as [sh' Hu]; [lia|]. rewrite Hu. cbn [bind].
    apply (IH j').
    + lia.
    + intros i Hi. apply Hfail. lia.
    + intros i Hi. apply Hupd. lia.
    + replace (Datatypes.S k + j') with (k + Datatypes.S j') by lia. exact Hbad.
Qed.

(** X9. A refresh that fails inside the retry takes the evaluation down: when
    the calls of the header set-up up to call [j], within the [rtyAttNum]
    attempts, fail and the refresh after call [j] returns an error,
    [createChannelStep] panics with that error instead of returning it. *)
Theorem createChannelStep_refresh_failure_panics
    (n : nat) (S : State -> string) (w : World) (src dst : ProvableChain)
    (ord : Order) (sh0 : SyncHeaders) (j : nat) (e : Error) :
  validatePaths w = None ->
  NewSyncHeaders w = Ok sh0 ->
  j < n ->
  (forall i, i <= j -> Spec.setupError w i <> None) ->
  (forall i, i < j -> exists sh, Updates w i = Ok sh) ->
  Updates w j = Err e ->
  Channel.createChannelStep n S w src dst ord = Panic e
  /\ ChannelLegacy.createChannelStep n S w src dst ord = Panic e.
Proof.
  intros Hval Hsh Hj Hfail Hupd Hbad.
  pose proof (retry_Do_refresh_panics w n j 0
                {| sh_ := sh0; srcUpdateHeaders := []; dstUpdateHeaders := [] |}
                None e Hj) as Hrun.
  unfold Channel.createChannelStep, ChannelLegacy.createChannelStep.
  rewrite Hval, Hsh. cbn [bind]. rewrite Hrun.
  - split; reflexivity.
  - intros i Hi. apply Hfail. lia.
  - intros i Hi. apply Hupd. lia.
  - exact Hbad.
Qed.

Lemma createChannelStep_retry_recovers_witness :
  exists shj,
    (2 = 0 -> shj = Examples.pinned)
    /\ (forall j', 2 = Datatypes.S j' -> Updates Examples.flaky j' = Ok shj)
    /\ Channel.createChannelStep 5 Examples.State_String Examples.flaky
         (Examples.ibc0 true) (Examples.ibc1 true) ORDERED
       = Channel.createChannelStep 1 Examples.State_String
           (Spec.settled Examples.flaky shj ([], ["header3"]))
           (Examples.ibc0 true) (Examples.ibc1 true) ORDERED
    /\ ChannelLegacy.createChannelStep 5 Examples.State_String Examples.flaky
         (Examples.ibc0 true) (Examples.ibc1 true) ORDERED
       = ChannelLegacy.createChannelStep 1 Examples.State_String
           (Spec.settled Examples.flaky shj ([], ["header3"]))
           (Examples.ibc0 true) (Examples.ibc1 true) ORDERED.
Proof.
  refine (createChannelStep_retry_recovers
            5 Examples.State_String Examples.flaky
            (Examples.ibc0 true) (Examples.ibc1 true) ORDERED
            Examples.pinned 2 ([], ["header3"]) eq_refl eq_refl _ _ _ eq_refl).
  - lia.
  - intros i Hi. destruct i as [|[|i]]; [cbn; discriminate ..|lia].
  - intros i Hi. exists Examples.pinned. reflexivity.
Defined.

Lemma createChannelStep_refresh_failure_panics_witness :
  Channel.createChannelStep 5 Examples.State_String Examples.refreshDown
    (Examples.ibc0 true) (Examples.ibc1 true) ORDERED
  = Panic "refresh failed".
Proof.
  refine (proj1 (createChannelStep_refresh_failure_panics
            5 Examples.State_String Examples.refreshDown
            (Examples.ibc0 true) (Examples.ibc1 true) ORDERED
            Examples.pinned 1 "refresh failed" eq_refl eq_refl _ _ _ eq_refl)).
  - lia.
  - intros i Hi. cbn. discriminate.
  - intros i Hi. exists Examples.pinned.
    destruct i as [|i]; [reflexivity|lia].
Defined.

(** ** Further properties of the driver *)

Lemma sendSide_no_sleep (c : ProvableChain) (ms : list Msg) :
  Spec.sleeps (snd (sendSide c ms)) = [].
Proof. destruct ms; reflexivity. Qed.

Lemma send_no_sleep (r : RelayMsgs) (src dst : ProvableChain) :
  Spec.sleeps (snd (RelayMsgs_Send r src dst)) = [].
Proof.
  unfold RelayMsgs_Send.
  pose proof (sendSide_no_sleep src (Src r)) as Hs.
  pose proof (sendSide_no_sleep dst (Dst r)) as Hd.
  destruct (sendSide src (Src r)) as [okS fxS].
  destruct (sendSide dst (Dst r)) as [okD fxD].
  cbn [snd] in *. unfold Spec.sleeps in *. now rewrite filter_app, Hs, Hd.
Qed.

Lemma sendEffects_no_sleep (r : Outcome RelayMsgs) (t : Tick) :
  Spec.sleeps (Spec.sendEffects r t) = [].
Proof.
  unfold Spec.sendEffects. destruct r as [out|e|v]; try reflexivity.
  destruct (Ready out); [apply send_no_sleep|reflexivity].
Qed.

Lemma channel_loopBody_effects (n : nat) (S : State -> string) (ord : Order)
    (f : nat) (t : Tick) :
  snd (Channel.loopBody n S ord f t)
  = Spec.sendEffects
      (Channel.createChannelStep n S (world t) (src t) (dst t) ord) t
    ++ match Spec.kindOf
               (Channel.createChannelStep n S (world t) (src t) (dst t) ord) t
       with
       | Spec.Rejected => [Sleep 5]
       | _ => []
       end.
Proof.
  unfold Channel.loopBody, Spec.kindOf, Spec.sendEffects.
  destruct (Channel.createChannelStep n S (world t) (src t) (dst t) ord)
    as [out|e|v]; [|reflexivity|reflexivity].
  destruct (Ready out); cbn [negb]; [|reflexivity].
  destruct (RelayMsgs_Send out (src t) (dst t)) as [sent fx]. cbn [fst snd].
  destruct (Success sent), (Last sent); cbn [andb negb snd];
    rewrite ?app_nil_r; try reflexivity;
    destruct (2 <? Datatypes.S f)%nat; reflexivity.
Qed.

Lemma legacy_loopBody_effects (n : nat) (S : State -> string) (ord : Order)
    (f : nat) (t : Tick) :
  snd (ChannelLegacy.loopBody n S ord f t)
  = Spec.sendEffects
      (ChannelLegacy.createChannelStep n S (world t) (src t) (dst t) ord) t
    ++ match Spec.kindOf
               (ChannelLegacy.createChannelStep n S (world t) (src t) (dst t)
                  ord) t
       with
       | Spec.Rejected => [Sleep 5]
       | _ => []
       end.
Proof.
  unfold ChannelLegacy.loopBody, Spec.kindOf, Spec.sendEffects.
  destruct (ChannelLegacy.createChannelStep n S (world t) (src t) (dst t) ord)
    as [out|e|v]; [|reflexivity|reflexivity].
  destruct (Ready out); cbn [negb]; [|reflexivity].
  destruct (RelayMsgs_Send out (src t) (dst t)) as [sent fx]. cbn [fst snd].
  destruct (Success sent), (Last sent); cbn [andb negb snd];
    rewrite ?app_nil_r; try reflexivity;
    destruct (2 <? Datatypes.S f)%nat; reflexivity.
Qed.

(** X10. The cooldown follows every rejected submission and nothing else: on
    a tick whose submission is rejected the driver's last effect is a sleep of
    5 seconds, also when the rejection is the third in a row and the driver
    then returns; on any other tick the driver does not sleep. *)
Theorem CreateChannel_cooldown_after_rejection
    (n : nat) (S : State -> string) (ord : Order) (f : nat) (t : Tick) :
  (Spec.kindOf (Channel.createChannelStep n S (world t) (src t) (dst t) ord) t
   = Spec.Rejected ->
   exists submitted,
     snd (Channel.loopBody n S ord f t) = submitted ++ [Sleep 5]
     /\ Spec.sleeps submitted = [])
  /\ (Spec.kindOf (Channel.createChannelStep n S (world t) (src t) (dst t) ord) t
      <> Spec.Rejected ->
      Spec.sleeps (snd (Channel.loopBody n S ord f t)) = [])
  /\ (Spec.kindOf
        (ChannelLegacy.createChannelStep n S (world t) (src t) (dst t) ord) t
      = Spec.Rejected ->
      exists submitted,
        snd (ChannelLegacy.loopBody n S ord f t) = submitted ++ [Sleep 5]
        /\ Spec.sleeps submitted = [])
  /\ (Spec.kindOf
        (ChannelLegacy.createChannelStep n S (world t) (src t) (dst t) ord) t
      <> Spec.Rejected ->
      Spec.sleeps (snd (ChannelLegacy.loopBody n S ord f t)) = []).
Proof.
  rewrite channel_loopBody_effects, legacy_loopBody_effects.
  repeat split.
  - intros ->. eexists. split; [reflexivity|apply sendEffects_no_sleep].
  - intros Hk. unfold Spec.sleeps. rewrite filter_app.
    fold (Spec.sleeps (Spec.sendEffects
            (Channel.createChannelStep n S (world t) (src t) (dst t) ord) t)).
    rewrite sendEffects_no_sleep.
    destruct (Spec.kindOf _ t); try reflexivity. now elim Hk.
  - intros ->. eexists. split; [reflexivity|apply sendEffects_no_sleep].
  - intros Hk. unfold Spec.sleeps. rewrite filter_app.
    fold (Spec.sleeps (Spec.sendEffects
            (ChannelLegacy.createChannelStep n S (world t) (src t) (dst t) ord)
            t)).
    rewrite sendEffects_no_sleep.
    destruct (Spec.kindOf _ t); try reflexivity. now elim Hk.
Qed.

Lemma CreateChannel_cooldown_after_rejection_witness :
  exists submitted,
    snd (Channel.loopBody Examples.rtyAttNum Examples.State_String ORDERED 2
           (Examples.coldStart false)) = submitted ++ [Sleep 5]
    /\ Spec.sleeps submitted = [].
Proof.
  exact (proj1 (CreateChannel_cooldown_after_rejection
                  Examples.rtyAttNum Examples.State_String ORDERED 2
                  (Examples.coldStart false)) eq_refl).
Defined.

Section Outcomes.

Variable body : nat -> Tick -> LoopResult * list Effect.
Variable stopOnWait : bool.
Variable failure : Tick -> Error.
Variable kind : Tick -> Spec.TickKind.

Hypothesis body_refines :
  forall f t, fst (body f t) = Spec.driverStep stopOnWait (failure t) f (kind t).

Hypothesis never_stops_waiting :
  stopOnWait = true -> forall t, kind t <> Spec.Waiting.

Lemma run_cons_state (f : nat) (t : Tick) (xs : list Tick) :
  fst (Spec.run body f (t :: xs))
  = match fst (body f t) with
    | Continue f' => fst (Spec.run body f' xs)
    | Return err => Returned err
    | Panicked v => Crashed v
    end.
Proof.
  cbn [Spec.run]. destruct (body f t) as [[f'|err|v] fx]; cbn [fst];
    try reflexivity.
  destruct (Spec.run body f' xs). reflexivity.
Qed.

Lemma run_nil_after_last_step (xs : list Tick) :
  forall f0,
    fst (Spec.run body f0 xs) = Returned None ->
    exists pre t post f,
      xs = pre ++ t :: post
      /\ fst (Spec.run body f0 pre) = Running f
      /\ kind t = Spec.Accepted true.
Proof.
  induction xs as [|t xs IH]; intros f0 Hrun; [discriminate Hrun|].
  rewrite run_cons_state in Hrun.
  destruct (fst (body f0 t)) as [f'|err|v] eqn:Hb; [| |discriminate Hrun].
  - destruct (IH f' Hrun) as (pre & t' & post & f & -> & Hpre & Hk).
    exists (t :: pre), t', post, f. repeat split; [|exact Hk].
    rewrite run_cons_state, Hb. exact Hpre.
  - injection Hrun as ->. rewrite body_refines in Hb.
    exists [], t, xs, f0. repeat split.
    destruct (kind t) as [e|v| |[|]|] eqn:Hk; cbn [Spec.driverStep] in Hb;
      try discriminate Hb; try reflexivity.
    + destruct stopOnWait eqn:Hs; [|discriminate Hb].
      exfalso. exact (never_stops_waiting eq_refl t Hk).
    + destruct (2 <? Datatypes.S f0)%nat; discriminate Hb.
Qed.

Lemma run_last_step_returns_nil (pre post : list Tick) (t : Tick) (f0 f : nat) :
  fst (Spec.run body f0 pre) = Running f ->
  kind t = Spec.Accepted true ->
  fst (Spec.run body f0 (pre ++ t :: post)) = Returned None.
Proof.
  intros Hpre Hk. rewrite run_app.
  destruct (Spec.run body f0 pre) as [st fx]. cbn [fst] in Hpre. subst st.
  pose proof (run_cons_state f t post) as Hc.
  rewrite body_refines, Hk in Hc. cbn [Spec.driverStep] in Hc.
  destruct (Spec.run body f (t :: post)) as [st' fx']. cbn [fst] in *.
  now subst st'.
Qed.

Lemma run_stops_on_quiet_return (pre more : list Tick) (t : Tick)
    (f0 f : nat) (r : LoopResult) :
  fst (Spec.run body f0 pre) = Running f ->
  body f t = (r, []) ->
  (forall f', r <> Continue f') ->
  Spec.run body f0 (pre ++ t :: more)
  = (Spec.stateOf r, snd (Spec.run body f0 pre)).
Proof.
  intros Hpre Hb Hr. rewrite run_app.
  destruct (Spec.run body f0 pre) as [st fx]. cbn [fst snd] in *. subst st.
  cbn [Spec.run]. rewrite Hb.
  destruct r as [f'|err|v]; cbn [Spec.stateOf]; rewrite ?app_nil_r;
    try reflexivity.
  now elim (Hr f').
Qed.

End Outcomes.

Lemma legacy_never_waits (n : nat) (S : State -> string) (ord : Order)
    (t : Tick) :
  Spec.kindOf
    (ChannelLegacy.createChannelStep n S (world t) (src t) (dst t) ord) t
  <> Spec.Waiting.
Proof.
  unfold Spec.kindOf.
  destruct (ChannelLegacy.createChannelStep n S (world t) (src t) (dst t) ord)
    as [out|e|v] eqn:Hstep; try discriminate.
  rewrite (legacy_step_always_ready n S _ _ _ ord out Hstep).
  destruct (Success _); discriminate.
Qed.

(** X11. [CreateChannel] returns nil exactly when, while it was still
    running, a batch marked as the last step was submitted and accepted: it
    never reports success for anything else, and it reports it whatever the
    failure counter was. *)
Theorem CreateChannel_success_iff_last_step_accepted
    (n : nat) (S : State -> string) (ordered : bool) (ticks : list Tick) :
  (fst (Channel.CreateChannel n S ticks ordered) = Returned None <->
   exists pre t post f,
     ticks = pre ++ t :: post
     /\ fst (Channel.CreateChannel n S pre ordered) = Running f
     /\ Spec.kindOf
          (Channel.createChannelStep n S (world t) (src t) (dst t)
             (if ordered then ORDERED else UNORDERED)) t
        = Spec.Accepted true)
  /\ (fst (ChannelLegacy.CreateChannel n S ticks ordered) = Returned None <->
      exists pre t post f,
        ticks = pre ++ t :: post
        /\ fst (ChannelLegacy.CreateChannel n S pre ordered) = Running f
        /\ Spec.kindOf
             (ChannelLegacy.createChannelStep n S (world t) (src t) (dst t)
                (if ordered then ORDERED else UNORDERED)) t
           = Spec.Accepted true).
Proof.
  unfold Channel.CreateChannel, ChannelLegacy.CreateChannel.
  set (ord := if ordered then ORDERED else UNORDERED).
  split; split.
  - rewrite channel_loop_run. intros H.
    destruct (run_nil_after_last_step _ false _ _
                (channel_loopBody_refines n S ord)
                ltac:(discriminate) ticks 0 H)
      as (pre & t & post & f & -> & Hpre & Hk).
    exists pre, t, post, f. rewrite channel_loop_run. repeat split; assumption.
  - intros (pre & t & post & f & -> & Hpre & Hk).
    rewrite channel_loop_run in *.
    exact (run_last_step_returns_nil _ false _ _
             (channel_loopBody_refines n S ord) pre post t 0 f Hpre Hk).
  - rewrite legacy_loop_run. intros H.
    destruct (run_nil_after_last_step _ true _ _
                (legacy_loopBody_refines n S ord)
                (fun _ => legacy_never_waits n S ord) ticks 0 H)
      as (pre & t & post & f & -> & Hpre & Hk).
    exists pre, t, post, f. rewrite legacy_loop_run. repeat split; assumption.
  - intros (pre & t & post & f & -> & Hpre & Hk).
    rewrite legacy_loop_run in *.
    exact (run_last_step_returns_nil _ true _ _
             (legacy_loopBody_refines n S ord) pre post t 0 f Hpre Hk).
Qed.

Lemma CreateChannel_success_iff_last_step_accepted_witness :
  fst (ChannelLegacy.CreateChannel Examples.rtyAttNum Examples.State_String
         ([Examples.coldStart false; Examples.coldStart false]
          ++ Examples.finalConfirm :: [Examples.coldStart true]) true)
  = Returned None.
Proof.
  apply (proj2 (proj2 (CreateChannel_success_iff_last_step_accepted
                         Examples.rtyAttNum Examples.State_String true _))).
  exists [Examples.coldStart false; Examples.coldStart false],
    Examples.finalConfirm, [Examples.coldStart true], 2.
  repeat split.
Defined.

(** X12. An evaluation that fails ends the run at once: when the driver is
    running and [createChannelStep] returns an error on a tick, the driver
    returns that very error, submits nothing and does not sleep on that tick
    and processes no later tick; a panic of the evaluator takes the driver
    down in the same way. *)
Theorem CreateChannel_stops_on_evaluator_failure
    (n : nat) (S : State -> string) (ordered : bool)
    (pre more : list Tick) (t : Tick) (f : nat) :
  (fst (Channel.CreateChannel n S pre ordered) = Running f ->
   (forall e,
      Channel.createChannelStep n S (world t) (src t) (dst t)
        (if ordered then ORDERED else UNORDERED) = Err e ->
      Channel.CreateChannel n S (pre ++ t :: more) ordered
      = (Returned (Some e), snd (Channel.CreateChannel n S pre ordered)))
   /\ (forall v,
         Channel.createChannelStep n S (world t) (src t) (dst t)
           (if ordered then ORDERED else UNORDERED) = Panic v ->
         Channel.CreateChannel n S (pre ++ t :: more) ordered
         = (Crashed v, snd (Channel.CreateChannel n S pre ordered))))
  /\ (fst (ChannelLegacy.CreateChannel n S pre ordered) = Running f ->
      (forall e,
         ChannelLegacy.createChannelStep n S (world t) (src t) (dst t)
           (if ordered then ORDERED else UNORDERED) = Err e ->
         ChannelLegacy.CreateChannel n S (pre ++ t :: more) ordered
         = (Returned (Some e),
            snd (ChannelLegacy.CreateChannel n S pre ordered)))
      /\ (forall v,
            ChannelLegacy.createChannelStep n S (world t) (src t) (dst t)
              (if ordered then ORDERED else UNORDERED) = Panic v ->
            ChannelLegacy.CreateChannel n S (pre ++ t :: more) ordered
            = (Crashed v, snd (ChannelLegacy.CreateChannel n S pre ordered)))).
Proof.
  unfold Channel.CreateChannel, ChannelLegacy.CreateChannel.
  set (ord := if ordered then ORDERED else UNORDERED).
  rewrite !channel_loop_run, !legacy_loop_run.
  split; intros Hpre; split; intros x Hx.
  - apply (run_stops_on_quiet_return _ pre more t 0 f (Return (Some x)) Hpre);
      [|discriminate].
    unfold Channel.loopBody. now rewrite Hx.
  - apply (run_stops_on_quiet_return _ pre more t 0 f (Panicked x) Hpre);
      [|discriminate].
    unfold Channel.loopBody. now rewrite Hx.
  - apply (run_stops_on_quiet_return _ pre more t 0 f (Return (Some x)) Hpre);
      [|discriminate].
    unfold ChannelLegacy.loopBody. now rewrite Hx.
  - apply (run_stops_on_quiet_return _ pre more t 0 f (Panicked x) Hpre);
      [|discriminate].
    unfold ChannelLegacy.loopBody. now rewrite Hx.
Qed.

Lemma CreateChannel_stops_on_evaluator_failure_witness :
  Channel.CreateChannel Examples.rtyAttNum Examples.State_String
    ([Examples.coldStart false]
     ++ Examples.tickOf Examples.noPath true true :: [Examples.coldStart true])
    true
  = (Returned (Some "path on chain ibc0 failed to set"),
     snd (Channel.CreateChannel Examples.rtyAttNum Examples.State_String
            [Examples.coldStart false] true)).
Proof.
  exact (proj1 (proj1 (CreateChannel_stops_on_evaluator_failure
                  Examples.rtyAttNum Examples.State_String true
                  [Examples.coldStart false] [Examples.coldStart true]
                  (Examples.tickOf Examples.noPath true true) 1) eq_refl)
               "path on chain ibc0 failed to set" eq_refl).
Defined.

Lemma channel_loop_ignores_order (n : nat) (S : State -> string)
    (o1 o2 : Order) (ticks : list Tick) :
  forall f, Channel.loop n S o1 f ticks = Channel.loop n S o2 f ticks.
Proof.
  induction ticks as [|t rest IH]; intros f; cbn [Channel.loop];
    [reflexivity|].
  change (Channel.loopBody n S o1 f t) with (Channel.loopBody n S o2 f t).
  destruct (Channel.loopBody n S o2 f t) as [[f'|err|v] fx];
    [rewrite IH|..]; reflexivity.
Qed.

Lemma legacy_loop_ignores_order (n : nat) (S : State -> string)
    (o1 o2 : Order) (ticks : list Tick) :
  forall f, ChannelLegacy.loop n S o1 f ticks = ChannelLegacy.loop n S o2 f ticks.
Proof.
  induction ticks as [|t rest IH]; intros f; cbn [ChannelLegacy.loop];
    [reflexivity|].
  change (ChannelLegacy.loopBody n S o1 f t)
    with (ChannelLegacy.loopBody n S o2 f t).
  destruct (ChannelLegacy.loopBody n S o2 f t) as [[f'|err|v] fx];
    [rewrite IH|..]; reflexivity.
Qed.

(** X13. The [ordered] argument of [CreateChannel] has no effect: over the
    same ticks the driver ends in the same state and does the same to the
    chains whether it is asked for an ordered or an unordered channel. *)
Theorem CreateChannel_ignores_ordered
    (n : nat) (S : State -> string) (ticks : list Tick) :
  Channel.CreateChannel n S ticks true = Channel.CreateChannel n S ticks false
  /\ ChannelLegacy.CreateChannel n S ticks true
     = ChannelLegacy.CreateChannel n S ticks false.
Proof.
  unfold Channel.CreateChannel, ChannelLegacy.CreateChannel. split.
  - apply channel_loop_ignores_order.
  - apply legacy_loop_ignores_order.
Qed.

(** ** Further properties of the strategy runner *)

(** X14. When [RunStrategy] returns an error it returns no handle, and unless
    the error is the one of [NewSyncHeaders] both listeners have already been
    started: a failure of [UnrelayedSequences] or of [RelayPackets] leaves the
    two goroutines behind. *)
Theorem RunStrategy_error_leaves_listeners
    (w : Strategy.StrategyWorld) (src dst : string) (e : Error)
    (gs : list Strategy.Goroutine) :
  Strategy.RunStrategy w src dst = (Err e, gs) ->
  (Strategy.NewSyncHeaders w = Err e /\ gs = [])
  \/ (exists sh,
        Strategy.NewSyncHeaders w = Ok sh
        /\ gs = Spec.listeners src dst
        /\ (Strategy.UnrelayedSequences w = Err e
            \/ exists sp,
                 Strategy.UnrelayedSequences w = Ok sp
                 /\ Strategy.RelayPackets w = Some e)).
Proof.
  unfold Strategy.RunStrategy.
  destruct (Strategy.NewSyncHeaders w) as [sh|e0|v]; try discriminate.
  - destruct (Strategy.UnrelayedSequences w) as [sp|e1|v]; try discriminate.
    + destruct (Strategy.RelayPackets w) as [e2|]; try discriminate.
      intros H. injection H as -> <-. right. exists sh. repeat split.
      right. exists sp. now split.
    + intros H. injection H as -> <-. right. exists sh. repeat split.
      now left.
  - intros H. injection H as -> <-. now left.
Qed.

Lemma RunStrategy_error_leaves_listeners_witness :
  (Strategy.NewSyncHeaders Examples.relayBroken = Err "query failed"
   /\ Spec.listeners "ibc0" "ibc1" = [])
  \/ (exists sh,
        Strategy.NewSyncHeaders Examples.relayBroken = Ok sh
        /\ Spec.listeners "ibc0" "ibc1" = Spec.listeners "ibc0" "ibc1"
        /\ (Strategy.UnrelayedSequences Examples.relayBroken
            = Err "query failed"
            \/ exists sp,
                 Strategy.UnrelayedSequences Examples.relayBroken = Ok sp
                 /\ Strategy.RelayPackets Examples.relayBroken
                    = Some "query failed")).
Proof.
  exact (RunStrategy_error_leaves_listeners Examples.relayBroken
           "ibc0" "ibc1" "query failed" (Spec.listeners "ibc0" "ibc1")
           eq_refl).
Defined.
